(** * Real-time gateway of chat-herretics (backend/src/utils/socket.ts)

    Shallow embedding of the Socket.io gateway: the authentication
    middleware ([io.use]), the connection handler ([io.on("connection")])
    and the per-socket handlers for [join-chat], [leave-chat],
    [send-message], [typing] and [disconnect].

    The process state is explicit: the document store (users, chats,
    messages), the [onlineUsers] map and the connected sockets with their
    room memberships.  Each handler is a function from the state to the
    new state and the list of [emit] calls it performs, in order.  The
    handlers are run to completion one at a time. *)

From Stdlib Require Import String Ascii List Bool Arith Lia ZArith.
From Stdlib Require Import Permutation.
Import ListNotations.
Open Scope string_scope.

(** ** Documents of the store (models/User, models/Chat, models/Message) *)

Record User := mkUser {
  user_id : string;            (* user._id.toString() *)
  clerkId : string;
  name : string;
  email : string;
  avatar : string
}.

Record Chat := mkChat {
  chat_id : string;
  participants : list string;
  lastMessage : option nat;    (* chat.lastMessage = message._id *)
  lastMessageAt : option Z;    (* chat.lastMessageAt = new Date() *)
  chat_createdAt : Z
}.

Record Message := mkMessage {
  msg_id : nat;
  msg_chat : string;
  msg_sender : string;
  msg_text : string
}.

(** [message.populate("sender", "name email avatar")]: the sender path is
    replaced by the selected fields of the user, or [null]. *)
Record SenderProfile := mkSenderProfile {
  sp_id : string;
  sp_name : string;
  sp_email : string;
  sp_avatar : string
}.

Record PopulatedMessage := mkPopulatedMessage {
  pm_id : nat;
  pm_chat : string;
  pm_sender : option SenderProfile;
  pm_text : string
}.

(** ** Casting a string to an ObjectId

    A query or create on an [_id]/ref path casts the given string to an
    ObjectId; a string that is not 24 hexadecimal digits makes the cast,
    and so the awaited query, throw.  Ids are compared in their canonical
    (lower-case) hexadecimal form. *)

Definition hex_lower (c : ascii) : option ascii :=
  let n := nat_of_ascii c in
  if (48 <=? n)%nat && (n <=? 57)%nat then Some c
  else if (97 <=? n)%nat && (n <=? 102)%nat then Some c
  else if (65 <=? n)%nat && (n <=? 70)%nat then Some (ascii_of_nat (n + 32)%nat)
  else None.

Fixpoint lower_hex (s : string) : option string :=
  match s with
  | EmptyString => Some EmptyString
  | String c t =>
      match hex_lower c, lower_hex t with
      | Some c', Some t' => Some (String c' t')
      | _, _ => None
      end
  end.

Definition object_id_cast (s : string) : option string :=
  if (String.length s =? 24)%nat then lower_hex s else None.

(** ** JS [Map<string, string>]: [onlineUsers] *)

Definition JsMap := list (string * string).

Fixpoint map_set (m : JsMap) (k v : string) : JsMap :=
  match m with
  | [] => [(k, v)]
  | (k', v') :: t =>
      if String.eqb k k' then (k, v) :: t else (k', v') :: map_set t k v
  end.

Definition map_delete (m : JsMap) (k : string) : JsMap :=
  filter (fun kv => negb (String.eqb (fst kv) k)) m.

Fixpoint map_get (m : JsMap) (k : string) : option string :=
  match m with
  | [] => None
  | (k', v) :: t => if String.eqb k k' then Some v else map_get t k
  end.

Definition map_keys (m : JsMap) : list string := map fst m.

(** ** Sockets, rooms and emissions *)

Record Sock := mkSock {
  sid : string;                (* socket.id *)
  s_uid : string;              (* socket.data.userId *)
  s_rooms : list string
}.

Definition chat_room (chatId : string) : string := "chat:" ++ chatId.
Definition user_room (userId : string) : string := "user:" ++ userId.

(** [socket.join] / [socket.leave]: a room is a set of sockets. *)
Definition add_room (r : string) (rs : list string) : list string :=
  if existsb (String.eqb r) rs then rs else rs ++ [r].

Definition remove_room (r : string) (rs : list string) : list string :=
  filter (fun r' => negb (String.eqb r r')) rs.

Inductive Target :=
| ToSocket (x : string)               (* socket.emit *)
| BroadcastExcept (x : string)        (* socket.broadcast.emit *)
| ToRoom (r : string)                 (* io.to(r).emit *)
| ToRoomExcept (r : string) (x : string). (* socket.to(r).emit *)

Inductive Payload :=
| POnlineUsers (userIds : list string)
| PUserId (userId : string)
| PMessage (m : PopulatedMessage)
| PTyping (userId chatId : string) (isTyping : bool)
| PErrorMessage (message : string).

Record Emission := mkEmission {
  target : Target;
  event : string;
  payload : Payload
}.

(** Whether a connected socket receives an emission. *)
Definition receives (s : Sock) (e : Emission) : bool :=
  match target e with
  | ToSocket x => String.eqb (sid s) x
  | BroadcastExcept x => negb (String.eqb (sid s) x)
  | ToRoom r => existsb (String.eqb r) (s_rooms s)
  | ToRoomExcept r x =>
      existsb (String.eqb r) (s_rooms s) && negb (String.eqb (sid s) x)
  end.

(** Number of events named [ev] delivered to socket [s]. *)
Definition delivered (s : Sock) (ev : string) (es : list Emission) : nat :=
  length (filter (fun e => String.eqb (event e) ev && receives s e) es).

(** ** Process state *)

Record State := mkState {
  users : list User;
  chats : list Chat;
  messages : list Message;
  next_msg : nat;              (* id given to the next Message.create *)
  onlineUsers : JsMap;
  socks : list Sock            (* connected sockets of the namespace *)
}.

Definition with_online (st : State) (m : JsMap) : State :=
  mkState (users st) (chats st) (messages st) (next_msg st) m (socks st).

Definition with_socks (st : State) (ss : list Sock) : State :=
  mkState (users st) (chats st) (messages st) (next_msg st) (onlineUsers st) ss.

Definition find_sock (st : State) (x : string) : option Sock :=
  find (fun s => String.eqb (sid s) x) (socks st).

Definition update_sock (st : State) (x : string) (f : Sock -> Sock) : State :=
  with_socks st (map (fun s => if String.eqb (sid s) x then f s else s) (socks st)).

(** [message.populate("sender", "name email avatar")] *)
Definition populate_sender (us : list User) (m : Message) : PopulatedMessage :=
  let sender :=
    match find (fun u => String.eqb (user_id u) (msg_sender m)) us with
    | Some u => Some (mkSenderProfile (user_id u) (name u) (email u) (avatar u))
    | None => None
    end in
  mkPopulatedMessage (msg_id m) (msg_chat m) sender (msg_text m).

(** Outcome of an awaited [findOne]/[findById]: the promise rejects
    ([LFault]), or resolves to [null] or to a document. *)
Inductive Lookup :=
| LFault
| LNotFound
| LFound (c : Chat).

(** [Chat.findOne({_id: chatId, participants: userId})] *)
Definition chat_find_one (st : State) (chatId userId : string) : Lookup :=
  match object_id_cast chatId, object_id_cast userId with
  | Some cid, Some uid =>
      match find (fun c => String.eqb (chat_id c) cid
                           && existsb (String.eqb uid) (participants c))
                 (chats st) with
      | Some c => LFound c
      | None => LNotFound
      end
  | _, _ => LFault
  end.

(** [Chat.findById(chatId)] *)
Definition chat_find_by_id (st : State) (chatId : string) : Lookup :=
  match object_id_cast chatId with
  | Some cid =>
      match find (fun c => String.eqb (chat_id c) cid) (chats st) with
      | Some c => LFound c
      | None => LNotFound
      end
  | None => LFault
  end.

Section Gateway.

(** [verifyToken(token, ...)]: the session subject, or [None] when the
    promise rejects. *)
Variable verifyToken : string -> option string.

Inductive AuthResult :=
| Accepted (userId : string)
| Rejected (reason : string).

(** [io.use(async (socket, next) => ...)]: the result, with the list of
    tokens passed to [verifyToken]. *)
Definition auth_middleware (st : State) (token : option string)
  : list string * AuthResult :=
  match token with
  | None | Some EmptyString => ([], Rejected "Unauthorized")
  | Some t =>
      ([t],
       match verifyToken t with
       | None => Rejected "Unauthorized"
       | Some sub =>
           match find (fun u => String.eqb (clerkId u) sub) (users st) with
           | None => Rejected "User not found!"
           | Some user => Accepted (user_id user)
           end
       end)
  end.

(** [io.on("connection", (socket) => ...)] for an admitted socket [x]. *)
Definition on_connection (st : State) (x userId : string) : State * list Emission :=
  let st0 := with_socks st (socks st ++ [mkSock x userId []]) in
  let e1 := mkEmission (ToSocket x) "online-users"
                       (POnlineUsers (map_keys (onlineUsers st0))) in
  let st1 := with_online st0 (map_set (onlineUsers st0) userId x) in
  let e2 := mkEmission (BroadcastExcept x) "user-online" (PUserId userId) in
  let st2 := update_sock st1 x
               (fun s => mkSock (sid s) (s_uid s)
                                (add_room (user_room userId) (s_rooms s))) in
  (st2, [e1; e2]).

(** A handshake of a new socket [x]: the middleware, then the connection
    handler when it calls [next()] without an error. *)
Definition connect (st : State) (x : string) (token : option string)
  : State * list Emission :=
  match find_sock st x with
  | Some _ => (st, [])
  | None =>
      match snd (auth_middleware st token) with
      | Accepted userId => on_connection st x userId
      | Rejected _ => (st, [])
      end
  end.

End Gateway.

(** [socket.on("join-chat", ...)] and [socket.on("leave-chat", ...)] *)
Definition join_chat (st : State) (s : Sock) (chatId : string)
  : State * list Emission :=
  (update_sock st (sid s)
     (fun s' => mkSock (sid s') (s_uid s') (add_room (chat_room chatId) (s_rooms s'))),
   []).

Definition leave_chat (st : State) (s : Sock) (chatId : string)
  : State * list Emission :=
  (update_sock st (sid s)
     (fun s' => mkSock (sid s') (s_uid s') (remove_room (chat_room chatId) (s_rooms s'))),
   []).

(** [socket.on("send-message", ...)]; [now] is [new Date()].  The message's
    [chat] is the cast of [chatId], which is [chat._id]. *)
Definition send_message (st : State) (s : Sock) (chatId text : string) (now : Z)
  : State * list Emission :=
  let userId := s_uid s in
  match chat_find_one st chatId userId with
  | LFault =>
      (st, [mkEmission (ToSocket (sid s)) "error"
                       (PErrorMessage "Failed to send message")])
  | LNotFound =>
      (st, [mkEmission (ToSocket (sid s)) "socket-error"
                       (PErrorMessage "Chat not found")])
  | LFound chat =>
      let message := mkMessage (next_msg st) (chat_id chat) userId text in
      let chat' := mkChat (chat_id chat) (participants chat)
                          (Some (msg_id message)) (Some now) (chat_createdAt chat) in
      let st' := mkState (users st)
                   (map (fun c => if String.eqb (chat_id c) (chat_id chat)
                                  then chat' else c) (chats st))
                   (messages st ++ [message]) (S (next_msg st))
                   (onlineUsers st) (socks st) in
      let m := populate_sender (users st') message in
      let emit_to r := mkEmission (ToRoom r) "new-message" (PMessage m) in
      (st', emit_to (chat_room chatId)
              :: map (fun participant => emit_to (user_room participant))
                     (participants chat'))
  end.

(** [socket.on("typing", ...)]; a failed lookup is swallowed. *)
Definition typing (st : State) (s : Sock) (chatId : string) (isTyping : bool)
  : State * list Emission :=
  let userId := s_uid s in
  let typePayload := PTyping userId chatId isTyping in
  let e1 := mkEmission (ToRoomExcept (chat_room chatId) (sid s)) "typing" typePayload in
  let rest :=
    match chat_find_by_id st chatId with
    | LFound chat =>
        match find (fun p => negb (String.eqb p userId)) (participants chat) with
        | Some otherParticipant =>
            [mkEmission (ToRoom (user_room otherParticipant)) "typing" typePayload]
        | None => []
        end
    | _ => []
    end in
  (st, e1 :: rest).

(** [socket.on("disconnect", ...)]: Socket.io has already removed the
    socket from the namespace and from its rooms when the handler runs. *)
Definition disconnect (st : State) (s : Sock) : State * list Emission :=
  let userId := s_uid s in
  let st0 := with_socks st (filter (fun s' => negb (String.eqb (sid s') (sid s)))
                                   (socks st)) in
  let st1 := with_online st0 (map_delete (onlineUsers st0) userId) in
  (st1, [mkEmission (BroadcastExcept (sid s)) "user-offline" (PUserId userId)]).

(** ** Events and runs *)

Inductive SocketEvent :=
| EConnect (x : string) (token : option string)
| EJoinChat (x chatId : string)
| ELeaveChat (x chatId : string)
| ESendMessage (x chatId text : string) (now : Z)
| ETyping (x chatId : string) (isTyping : bool)
| EDisconnect (x : string).

Definition on_sock (st : State) (x : string)
  (h : Sock -> State * list Emission) : State * list Emission :=
  match find_sock st x with
  | Some s => h s
  | None => (st, [])
  end.

Definition step (verifyToken : string -> option string) (st : State)
  (ev : SocketEvent) : State * list Emission :=
  match ev with
  | EConnect x token => connect verifyToken st x token
  | EJoinChat x chatId => on_sock st x (fun s => join_chat st s chatId)
  | ELeaveChat x chatId => on_sock st x (fun s => leave_chat st s chatId)
  | ESendMessage x chatId text now =>
      on_sock st x (fun s => send_message st s chatId text now)
  | ETyping x chatId b => on_sock st x (fun s => typing st s chatId b)
  | EDisconnect x => on_sock st x (fun s => disconnect st s)
  end.

(** States reachable from a fresh process over any store contents. *)
Inductive reachable (verifyToken : string -> option string) : State -> Prop :=
| reach_init us cs ms n : reachable verifyToken (mkState us cs ms n [] [])
| reach_step st ev :
    reachable verifyToken st -> reachable verifyToken (fst (step verifyToken st ev)).

(** Runs of events. *)
Fixpoint run (verifyToken : string -> option string) (st : State)
  (evs : list SocketEvent) : State :=
  match evs with
  | [] => st
  | ev :: evs' => run verifyToken (fst (step verifyToken st ev)) evs'
  end.


(** * HTTP API (backend/src/controllers, middlewares/auth)

    Each controller is a function of the store and of the request to the
    reply it sends; a controller that writes the store also returns the
    new store.  [userId] is [req.userId], set by [protectedRoute]. *)

(** What a handler does with a request: [res.status(200).json(body)] or
    [res.json(body)] ([Ok]), [res.status(s).json({ message })] ([Fail]),
    or [next(error)] ([Forward]); [Blocked] is a request that
    [requireAuth()] ends before the handler runs. *)
Inductive Reply (A : Type) :=
| Ok (body : A)
| Fail (status : nat) (message : string)
| Forward
| Blocked.

Arguments Ok {A} body.
Arguments Fail {A} status message.
Arguments Forward {A}.
Arguments Blocked {A}.

Definition with_users (st : State) (us : list User) : State :=
  mkState us (chats st) (messages st) (next_msg st) (onlineUsers st) (socks st).

Definition with_chats (st : State) (cs : list Chat) : State :=
  mkState (users st) cs (messages st) (next_msg st) (onlineUsers st) (socks st).

(** A user document restricted to [_id] and the selected fields
    ["name email avatar"]. *)
Definition profile (u : User) : SenderProfile :=
  mkSenderProfile (user_id u) (name u) (email u) (avatar u).

(** [protectedRoute] (middlewares/auth): [requireAuth()], then
    [User.findOne({ clerkId })]; [auth] is [getAuth(req).userId]. *)
Definition protectedRoute (st : State) (auth : option string) : Reply string :=
  match auth with
  | None => Blocked
  | Some clerk =>
      match find (fun u => String.eqb (clerkId u) clerk) (users st) with
      | None => Fail 401 "Unauthorized"
      | Some user => Ok (user_id user)
      end
  end.

(** A route [router.get(path, protectedRoute, handler)]. *)
Definition guarded {A} (g : Reply string) (handler : string -> Reply A) : Reply A :=
  match g with
  | Ok userId => handler userId
  | Fail s m => Fail s m
  | Forward => Forward
  | Blocked => Blocked
  end.

(** [User.findById(userId)]: [None] when the cast of [userId] throws. *)
Definition user_find_by_id (st : State) (userId : string) : option (option User) :=
  match object_id_cast userId with
  | Some uid => Some (find (fun u => String.eqb (user_id u) uid) (users st))
  | None => None
  end.

(** [getMe] (controllers/auth-controller); the catch block answers 500
    before calling [next(error)]. *)
Definition getMe (st : State) (userId : string) : Reply User :=
  match user_find_by_id st userId with
  | None => Fail 500 "Internal server error"
  | Some None => Fail 404 "User not found"
  | Some (Some user) => Ok user
  end.

(** [getUsers]:
    [User.find({ _id: { $ne: userId } }).select("name email avatar").limit(50)] *)
Definition getUsers (st : State) (userId : string) : Reply (list SenderProfile) :=
  match object_id_cast userId with
  | Some uid =>
      Ok (map profile (firstn 50 (filter (fun u => negb (String.eqb (user_id u) uid))
                                         (users st))))
  | None => Forward
  end.

(** [.populate("participants", "name email avatar")]: the ids in order,
    an id with no user document dropped. *)
Definition populate_participants (us : list User) (ps : list string)
  : list SenderProfile :=
  flat_map (fun p => match find (fun u => String.eqb (user_id u) p) us with
                     | Some u => [profile u]
                     | None => []
                     end) ps.

(** [.populate("lastMessage")] *)
Definition populate_last_message (ms : list Message) (m : option nat) : option Message :=
  match m with
  | Some i => find (fun x => Nat.eqb (msg_id x) i) ms
  | None => None
  end.

(** The object both chat controllers answer for a chat. *)
Record ChatView := mkChatView {
  cv_id : string;
  cv_participant : option SenderProfile;   (* otherParticipant ?? null *)
  cv_lastMessage : option Message;
  cv_lastMessageAt : option Z;
  cv_createdAt : Z
}.

Definition format_chat (st : State) (userId : string) (c : Chat) : ChatView :=
  let ps := populate_participants (users st) (participants c) in
  mkChatView (chat_id c)
             (find (fun p => negb (String.eqb (sp_id p) userId)) ps)
             (populate_last_message (messages st) (lastMessage c))
             (lastMessageAt c) (chat_createdAt c).

(** [.sort({ lastMessageAt: -1 })]: descending; a chat without
    [lastMessageAt] (null, the lowest BSON value) after every chat with
    one.  The order of ties is left to the server; here it is the order of
    an insertion sort. *)
Definition sorts_before (a b : Chat) : bool :=
  match lastMessageAt a, lastMessageAt b with
  | _, None => true
  | None, Some _ => false
  | Some x, Some y => (y <=? x)%Z
  end.

Fixpoint insert_chat (c : Chat) (l : list Chat) : list Chat :=
  match l with
  | [] => [c]
  | h :: t => if sorts_before c h then c :: h :: t else h :: insert_chat c t
  end.

Definition sort_chats (cs : list Chat) : list Chat := fold_right insert_chat [] cs.

(** [getChats]: [Chat.find({ participants: userId })] with both populates
    and the sort, each chat formatted. *)
Definition getChats (st : State) (userId : string) : Reply (list ChatView) :=
  match object_id_cast userId with
  | Some uid =>
      Ok (map (format_chat st userId)
              (sort_chats (filter (fun c => existsb (String.eqb uid) (participants c))
                                  (chats st))))
  | None => Forward
  end.

(** [Chat.findOne({ participants: { $all: [a, b] } })] *)
Definition chat_find_pair (st : State) (a b : string) : Lookup :=
  match object_id_cast a, object_id_cast b with
  | Some x, Some y =>
      match find (fun c => existsb (String.eqb x) (participants c)
                           && existsb (String.eqb y) (participants c)) (chats st) with
      | Some c => LFound c
      | None => LNotFound
      end
  | _, _ => LFault
  end.

(** [getOrCreateChat] for [POST /with/:participantId].  [new_chat ps] is
    the document [new Chat({ participants: ps }).save()] stores, with the
    [_id], defaults and timestamps of models/Chat.  [Types.ObjectId.isValid]
    on a string is the 24-hex-digit test of the cast. *)
Definition getOrCreateChat (new_chat : list string -> Chat) (st : State)
  (userId participantId : string) : State * Reply ChatView :=
  if String.eqb participantId "" then (st, Fail 400 "Participant ID is required")
  else
  match object_id_cast participantId with
  | None => (st, Fail 400 "Invalid participant ID")
  | Some _ =>
      if String.eqb userId participantId
      then (st, Fail 400 "You cannot chat with yourself")
      else
      match chat_find_pair st userId participantId with
      | LFault => (st, Forward)
      | LFound chat => (st, Ok (format_chat st userId chat))
      | LNotFound =>
          match object_id_cast userId, object_id_cast participantId with
          | Some x, Some y =>
              let chat := new_chat [x; y] in
              let st' := with_chats st (chats st ++ [chat]) in
              (st', Ok (format_chat st' userId chat))
          | _, _ => (st, Forward)
          end
      end
  end.

Definition route_me (st : State) (auth : option string) : Reply User :=
  guarded (protectedRoute st auth) (getMe st).

Definition route_users (st : State) (auth : option string) : Reply (list SenderProfile) :=
  guarded (protectedRoute st auth) (getUsers st).

Definition route_chats (st : State) (auth : option string) : Reply (list ChatView) :=
  guarded (protectedRoute st auth) (getChats st).

Definition route_chat_with (new_chat : list string -> Chat) (st : State)
  (auth : option string) (participantId : string) : State * Reply ChatView :=
  match protectedRoute st auth with
  | Ok userId => getOrCreateChat new_chat st userId participantId
  | Fail s m => (st, Fail s m)
  | Forward => (st, Forward)
  | Blocked => (st, Blocked)
  end.

(** ** [authCallback] *)

(** The fields of [clerkClient.users.getUser(clerkId)] it reads. *)
Record ClerkUser := mkClerkUser {
  firstName : option string;
  lastName : option string;
  emailAddresses : list string;
  imageUrl : option string
}.

(** JS truthiness of a string or null, and [x || ""]. *)
Definition truthy (o : option string) : bool :=
  match o with
  | Some s => negb (String.eqb s "")
  | None => false
  end.

Definition or_empty (o : option string) : string :=
  match o with
  | Some s => s
  | None => ""
  end.

(** [String.prototype.trim] on ASCII text: tab, line feed, vertical tab,
    form feed, carriage return and space. *)
Definition is_ws (c : ascii) : bool :=
  let n := nat_of_ascii c in ((n =? 32) || ((9 <=? n) && (n <=? 13)))%nat.

Fixpoint drop_ws (l : list ascii) : list ascii :=
  match l with
  | c :: t => if is_ws c then drop_ws t else l
  | [] => []
  end.

Definition trim (s : string) : string :=
  string_of_list_ascii (rev (drop_ws (rev (drop_ws (list_ascii_of_string s))))).

(** [s.split("@")[0]] *)
Fixpoint before_at (s : string) : string :=
  match s with
  | String c t => if Ascii.eqb c "@"%char then "" else String c (before_at t)
  | EmptyString => ""
  end.

(** [name] of the created user. *)
Definition derive_name (cu : ClerkUser) : option string :=
  if truthy (firstName cu)
  then Some (trim (or_empty (firstName cu) ++ " " ++ or_empty (lastName cu)))
  else option_map before_at (hd_error (emailAddresses cu)).

(** The document given to [User.create]; [None] is [undefined]. *)
Record NewUser := mkNewUser {
  nu_clerkId : string;
  nu_name : option string;
  nu_email : option string;
  nu_avatar : string
}.

Definition new_user_doc (clerk : string) (cu : ClerkUser) : NewUser :=
  mkNewUser clerk (derive_name cu) (hd_error (emailAddresses cu)) (or_empty (imageUrl cu)).

Section Callback.

(** [clerkClient.users.getUser]: [None] when the promise rejects. *)
Variable getUser : string -> option ClerkUser.

(** [User.create] under the schema of models/User, with [newId] as the
    [_id]: [None] when validation rejects the document. *)
Variable create : string -> NewUser -> option User.

(** [authCallback] (controllers/auth-controller); [auth] is
    [getAuth(req).userId]. *)
Definition authCallback (st : State) (auth : option string) (newId : string)
  : State * Reply User :=
  match auth with
  | None | Some EmptyString => (st, Fail 401 "Unauthorized")
  | Some clerk =>
      match find (fun u => String.eqb (clerkId u) clerk) (users st) with
      | Some user => (st, Ok user)
      | None =>
          match getUser clerk with
          | None => (st, Forward)
          | Some cu =>
              match create newId (new_user_doc clerk cu) with
              | None => (st, Forward)
              | Some user => (with_users st (users st ++ [user]), Ok user)
              end
          end
      end
  end.

End Callback.

(** A schema that keeps the [_id] and [clerkId] it is given. *)
Definition create_keeps (create : string -> NewUser -> option User) : Prop :=
  forall i d u, create i d = Some u -> user_id u = i /\ clerkId u = nu_clerkId d.

(** A schema that stores the participants it is given. *)
Definition chat_keeps (new_chat : list string -> Chat) : Prop :=
  forall ps, participants (new_chat ps) = ps.

(** An id as [_id.toString()] prints it. *)
Definition canonical_id (s : string) : Prop := object_id_cast s = Some s.

(** ** A concrete deployment

    Two users with ObjectId strings [u1] and [u2], a chat [c1] between
    them, and tokens [tok1] and [tok2] that the verifier resolves to their
    Clerk ids. *)
Module Fixture.

Definition u1 : string := "000000000000000000000001".
Definition u2 : string := "000000000000000000000002".
Definition c1 : string := "0000000000000000000000c1".
Definition c9 : string := "0000000000000000000000c9".

Definition verify (t : string) : option string :=
  if String.eqb t "tok1" then Some "clerk_1"
  else if String.eqb t "tok2" then Some "clerk_2"
  else None.

Definition st0 : State :=
  mkState [mkUser u1 "clerk_1" "Ann" "ann@example.com" "ann.png";
           mkUser u2 "clerk_2" "Bob" "bob@example.com" "bob.png"]
          [mkChat c1 [u1; u2] None None 0%Z] [] 0 [] [].

(** [u1] on socket [s1]; [u2] on socket [s2], which views chat [c1]. *)
Definition st_a : State :=
  run verify st0 [EConnect "s1" (Some "tok1"); EConnect "s2" (Some "tok2");
                  EJoinChat "s2" c1].

(** [u1] connected on [s1]. *)
Definition st_one : State := run verify st0 [EConnect "s1" (Some "tok1")].

(** [u1] connected on [s1], then again on [s3]. *)
Definition st_b : State := run verify st_one [EConnect "s3" (Some "tok1")].

Definition sock1 : Sock := mkSock "s1" u1 [user_room u1].
Definition sock2 : Sock := mkSock "s2" u2 [user_room u2; chat_room c1].
Definition sock3 : Sock := mkSock "s3" u1 [user_room u1].

(** The users [ann] and [bob] of [st0], and their chat [chat1]. *)
Definition ann : User := mkUser u1 "clerk_1" "Ann" "ann@example.com" "ann.png".
Definition bob : User := mkUser u2 "clerk_2" "Bob" "bob@example.com" "bob.png".
Definition chat1 : Chat := mkChat c1 [u1; u2] None None 0%Z.

(** An id with hexadecimal letters, and its upper-case spelling. *)
Definition u3 : string := "0000000000000000000000ab".
Definition u3_upper : string := "0000000000000000000000AB".

(** A Clerk instance with one account [clerk_3] that has no user yet, and
    a schema that requires a name and an e-mail address. *)
Definition clerk_dir (c : string) : option ClerkUser :=
  if String.eqb c "clerk_3"
  then Some (mkClerkUser None None ["cy@example.com"] None)
  else None.

Definition create_user (i : string) (d : NewUser) : option User :=
  match nu_name d, nu_email d with
  | Some n, Some e => Some (mkUser i (nu_clerkId d) n e (nu_avatar d))
  | _, _ => None
  end.

(** A chat schema whose [lastMessageAt] defaults to the creation time;
    the next chat created gets the id [c2] at time 1. *)
Definition c2 : string := "0000000000000000000000c2".

Definition new_chat (ps : list string) : Chat := mkChat c2 ps None (Some 1%Z) 1%Z.






End Fixture.

(** ** Room keys *)

Lemma chat_room_neq_user_room c u : chat_room c <> user_room u.
Proof. unfold chat_room, user_room; simpl; intro H; inversion H. Qed.

Lemma user_room_inj a b : user_room a = user_room b -> a = b.
Proof. unfold user_room; simpl; intro H; inversion H; reflexivity. Qed.

Lemma existsb_eqb_In r rs : existsb (String.eqb r) rs = true <-> In r rs.
Proof.
  rewrite existsb_exists; split.
  - intros [r' [Hin Heq]]; apply String.eqb_eq in Heq; subst; exact Hin.
  - intro Hin; exists r; split; [exact Hin | apply String.eqb_refl].
Qed.

Lemma add_room_In r r' rs : In r (add_room r' rs) <-> In r rs \/ r = r'.
Proof.
  unfold add_room; destruct (existsb (String.eqb r') rs) eqn:E.
  - apply existsb_eqb_In in E; split; [tauto|]; intros [H|H]; subst; auto.
  - rewrite in_app_iff; simpl; intuition.
Qed.

Lemma remove_room_In r r' rs : In r (remove_room r' rs) <-> In r rs /\ r <> r'.
Proof.
  unfold remove_room; rewrite filter_In; split.
  - intros [H1 H2]; split; [exact H1|]; intro; subst;
      rewrite String.eqb_refl in H2; discriminate.
  - intros [H1 H2]; split; [exact H1|].
    destruct (String.eqb_spec r' r); [congruence | reflexivity].
Qed.

(** ** Room invariant: a socket is in its own personal room and otherwise
    only in chat rooms. *)

Definition rooms_ok (s : Sock) : Prop :=
  In (user_room (s_uid s)) (s_rooms s) /\
  forall r, In r (s_rooms s) -> r = user_room (s_uid s) \/ exists c, r = chat_room c.

Definition rooms_inv (st : State) : Prop := forall s, In s (socks st) -> rooms_ok s.

(** Presence invariant: every entry of [onlineUsers] names a connected
    socket of that user. *)
Definition presence_inv (st : State) : Prop :=
  forall u x, map_get (onlineUsers st) u = Some x ->
    exists s, In s (socks st) /\ sid s = x /\ s_uid s = u.

Lemma rooms_ok_user_room s u :
  rooms_ok s -> In (user_room u) (s_rooms s) <-> u = s_uid s.
Proof.
  intros [Hown Hall]; split.
  - intro H; destruct (Hall _ H) as [E|[c E]].
    + exact (user_room_inj _ _ E).
    + exfalso; exact (chat_room_neq_user_room c u (eq_sym E)).
  - intros ->; exact Hown.
Qed.

Lemma find_sock_In st x s : find_sock st x = Some s -> In s (socks st) /\ sid s = x.
Proof.
  unfold find_sock; intro H; split.
  - exact (proj1 (find_some _ _ H)).
  - apply String.eqb_eq; exact (proj2 (find_some _ _ H)).
Qed.

Lemma find_sock_None st x s : find_sock st x = None -> In s (socks st) -> sid s <> x.
Proof.
  unfold find_sock; intros H Hin E; apply String.eqb_eq in E.
  pose proof (find_none _ _ H s Hin) as F; congruence.
Qed.

Lemma In_update_sock st x f s' :
  In s' (socks (update_sock st x f)) ->
  exists s, In s (socks st) /\ s' = (if String.eqb (sid s) x then f s else s).
Proof. simpl; intro H; apply in_map_iff in H; destruct H as [s [<- H]]; eauto. Qed.

Lemma rooms_inv_update st x f :
  rooms_inv st -> (forall s, In s (socks st) -> sid s = x -> rooms_ok (f s)) ->
  rooms_inv (update_sock st x f).
Proof.
  intros Hinv Hf s' Hin; apply In_update_sock in Hin; destruct Hin as [s [Hs ->]].
  destruct (String.eqb_spec (sid s) x); auto.
Qed.

Lemma rooms_ok_add_chat s c :
  rooms_ok s -> rooms_ok (mkSock (sid s) (s_uid s) (add_room (chat_room c) (s_rooms s))).
Proof.
  intros [Hown Hall]; split; simpl.
  - apply add_room_In; auto.
  - intros r Hr; apply add_room_In in Hr; destruct Hr as [Hr| Hr]; [auto | subst r; eauto].
Qed.

Lemma rooms_ok_remove_chat s c :
  rooms_ok s -> rooms_ok (mkSock (sid s) (s_uid s) (remove_room (chat_room c) (s_rooms s))).
Proof.
  intros [Hown Hall]; split; simpl.
  - apply remove_room_In; split; [exact Hown|].
    intro E; exact (chat_room_neq_user_room c (s_uid s) (eq_sym E)).
  - intros r Hr; apply remove_room_In in Hr; apply Hall; tauto.
Qed.

Lemma on_connection_rooms_inv st x userId :
  rooms_inv st -> find_sock st x = None ->
  rooms_inv (fst (on_connection st x userId)).
Proof.
  intros Hinv Hnone s' Hin; unfold on_connection in Hin; simpl in Hin.
  apply in_map_iff in Hin; destruct Hin as [s [<- Hs]].
  apply in_app_iff in Hs; destruct Hs as [Hs|[<-|[]]].
  - pose proof (find_sock_None _ _ _ Hnone Hs) as Hx.
    destruct (String.eqb_spec (sid s) x); [contradiction | exact (Hinv s Hs)].
  - simpl; rewrite String.eqb_refl; split; simpl; [left; reflexivity|].
    intros r [<-|[]]; left; reflexivity.
Qed.

Lemma send_message_socks st s chatId text now :
  socks (fst (send_message st s chatId text now)) = socks st.
Proof. unfold send_message; destruct (chat_find_one st chatId (s_uid s)); reflexivity. Qed.

Lemma step_rooms_inv vt st ev : rooms_inv st -> rooms_inv (fst (step vt st ev)).
Proof.
  intro Hinv; destruct ev as [x token|x c|x c|x c text now|x c b|x]; simpl;
    unfold on_sock.
  - unfold connect; destruct (find_sock st x) eqn:F; [exact Hinv|].
    destruct (snd (auth_middleware vt st token)); [|exact Hinv].
    apply on_connection_rooms_inv; assumption.
  - destruct (find_sock st x); [|exact Hinv].
    apply rooms_inv_update; [exact Hinv|]; intros s' Hs' _.
    apply rooms_ok_add_chat, Hinv, Hs'.
  - destruct (find_sock st x); [|exact Hinv].
    apply rooms_inv_update; [exact Hinv|]; intros s' Hs' _.
    apply rooms_ok_remove_chat, Hinv, Hs'.
  - destruct (find_sock st x) as [s|]; [|exact Hinv].
    intros s' Hin; rewrite send_message_socks in Hin; exact (Hinv s' Hin).
  - destruct (find_sock st x); exact Hinv.
  - destruct (find_sock st x) as [s|]; [|exact Hinv].
    intros s' Hin; simpl in Hin; apply filter_In in Hin; exact (Hinv s' (proj1 Hin)).
Qed.

Lemma reachable_rooms_inv vt st : reachable vt st -> rooms_inv st.
Proof.
  induction 1 as [us cs ms n|st ev _ IH].
  - intros s [].
  - apply step_rooms_inv, IH.
Qed.

Lemma chat_find_one_found st chatId userId chat :
  chat_find_one st chatId userId = LFound chat ->
  In chat (chats st) /\ object_id_cast chatId = Some (chat_id chat) /\
  exists u, object_id_cast userId = Some u /\ In u (participants chat).
Proof.
  unfold chat_find_one.
  destruct (object_id_cast chatId) as [cid|]; [|discriminate].
  destruct (object_id_cast userId) as [u|]; [|discriminate].
  destruct (find _ (chats st)) as [c|] eqn:F; intro H; inversion H; subst.
  apply find_some in F; destruct F as [Hin Hp].
  apply andb_prop in Hp; destruct Hp as [E1 E2].
  apply String.eqb_eq in E1; apply existsb_eqb_In in E2.
  subst; eauto.
Qed.

Lemma delivered_other_socket c x n p ev :
  sid c <> x -> delivered c ev [mkEmission (ToSocket x) n p] = 0.
Proof.
  intro Hc; unfold delivered; cbn [filter length].
  replace (receives c _) with false; [rewrite andb_false_r; reflexivity|].
  unfold receives; cbn [target]; symmetry; apply String.eqb_neq; exact Hc.
Qed.






Lemma map_get_set m k v : map_get (map_set m k v) k = Some v.
Proof.
  induction m as [|[k' v'] m IH]; simpl; [rewrite String.eqb_refl; reflexivity|].
  destruct (String.eqb_spec k k'); simpl; [rewrite String.eqb_refl; reflexivity|].
  destruct (String.eqb_spec k k'); [contradiction | exact IH].
Qed.

Lemma map_keys_get m k : In k (map_keys m) <-> map_get m k <> None.
Proof.
  induction m as [|[k' v'] m IH]; simpl; [tauto|].
  destruct (String.eqb_spec k k'); [subst; split; [discriminate | auto]|].
  rewrite <- IH; split; [intros [E|H]; [congruence | exact H] | auto].
Qed.

Lemma map_get_delete m k : map_get (map_delete m k) k = None.
Proof.
  induction m as [|[k' v'] m IH]; simpl; [reflexivity|].
  destruct (String.eqb_spec k' k); simpl; [exact IH|].
  destruct (String.eqb_spec k k'); [congruence | exact IH].
Qed.

Lemma find_app_none {A} (f : A -> bool) l a :
  find f l = None -> f a = true -> find f (l ++ [a]) = Some a.
Proof.
  induction l as [|b l IH]; simpl; [intros _ ->; reflexivity|].
  destruct (f b); [discriminate | exact IH].
Qed.

Lemma find_app_some {A} (f : A -> bool) l a b :
  find f l = Some b -> find f (l ++ [a]) = Some b.
Proof.
  induction l as [|c l IH]; simpl; [discriminate|].
  destruct (f c); [tauto | exact IH].
Qed.

Lemma find_map_same {A} (f : A -> bool) (g : A -> A) l :
  (forall a, f (g a) = f a) -> find f (map g l) = option_map g (find f l).
Proof.
  intro Hg; induction l as [|a l IH]; simpl; [reflexivity|].
  rewrite Hg; destruct (f a); [reflexivity | exact IH].
Qed.

Lemma find_filter_same {A} (f q : A -> bool) l :
  (forall a, f a = true -> q a = true) -> find f (filter q l) = find f l.
Proof.
  intro Hq; induction l as [|a l IH]; simpl; [reflexivity|].
  destruct (f a) eqn:Fa.
  - rewrite (Hq a Fa); simpl; rewrite Fa; reflexivity.
  - destruct (q a); simpl; [rewrite Fa|]; exact IH.
Qed.

Lemma find_sock_update st x y f :
  (forall s, sid (f s) = sid s) ->
  find_sock (update_sock st y f) x =
    option_map (fun s => if String.eqb (sid s) y then f s else s) (find_sock st x).
Proof.
  intro Hf; unfold find_sock; simpl; apply find_map_same.
  intro a; destruct (String.eqb (sid a) y); [rewrite Hf|]; reflexivity.
Qed.

(** The identity bound to a connected socket never changes while it stays
    connected. *)
Lemma step_keeps_sock vt st ev x s :
  find_sock st x = Some s -> ev <> EDisconnect x ->
  exists s', find_sock (fst (step vt st ev)) x = Some s' /\ s_uid s' = s_uid s.
Proof.
  intros Hs Hev.
  assert (Hupd : forall st0 y (f : Sock -> Sock),
            find_sock st0 x = Some s ->
            (forall s0, sid (f s0) = sid s0) -> (forall s0, s_uid (f s0) = s_uid s0) ->
            exists s', find_sock (update_sock st0 y f) x = Some s' /\ s_uid s' = s_uid s).
  { intros st0 y f H0 Hf1 Hf2; rewrite find_sock_update, H0 by exact Hf1; simpl.
    eexists; split; [reflexivity|]; destruct (String.eqb (sid s) y); auto. }
  destruct ev as [y token|y c|y c|y c text now|y c b|y]; simpl; unfold on_sock.
  - unfold connect; destruct (find_sock st y) eqn:Fy; [eauto|].
    destruct (snd (auth_middleware vt st token)) as [userId|]; [|eauto].
    unfold on_connection; cbn [fst]; apply Hupd; try reflexivity.
    unfold find_sock; simpl; apply find_app_some, Hs.
  - destruct (find_sock st y); [apply Hupd; auto | eauto].
  - destruct (find_sock st y); [apply Hupd; auto | eauto].
  - destruct (find_sock st y) as [s0|]; [|eauto].
    exists s; split; [|reflexivity].
    unfold find_sock; rewrite send_message_socks; exact Hs.
  - destruct (find_sock st y); eauto.
  - destruct (find_sock st y) as [s0|] eqn:Fy; [|eauto].
    exists s; split; [|reflexivity].
    unfold disconnect; unfold find_sock; simpl; rewrite find_filter_same; [exact Hs|].
    intros a Ha; apply String.eqb_eq in Ha; apply negb_true_iff, String.eqb_neq.
    apply find_sock_In in Fy; destruct Fy as [_ <-]; rewrite Ha.
    intro E; apply Hev; rewrite E; reflexivity.
Qed.

Lemma run_keeps_sock vt evs st x s :
  find_sock st x = Some s -> (forall ev, In ev evs -> ev <> EDisconnect x) ->
  exists s', find_sock (run vt st evs) x = Some s' /\ s_uid s' = s_uid s.
Proof.
  revert st s; induction evs as [|ev evs IH]; intros st s Hs Hevs; simpl; [eauto|].
  destruct (step_keeps_sock vt st ev x s Hs (Hevs ev (or_introl eq_refl))) as [s1 [H1 E1]].
  destruct (IH _ _ H1) as [s2 [H2 E2]]; [intros; apply Hevs; right; assumption|].
  exists s2; split; congruence.
Qed.

Lemma connect_admitted vt st x token userId :
  find_sock st x = None -> snd (auth_middleware vt st token) = Accepted userId ->
  step vt st (EConnect x token) = on_connection st x userId.
Proof. intros Hn Ha; simpl; unfold connect; rewrite Hn, Ha; reflexivity. Qed.

Lemma on_connection_sock st x userId :
  find_sock st x = None ->
  find_sock (fst (on_connection st x userId)) x = Some (mkSock x userId [user_room userId]).
Proof.
  intro Hn; unfold on_connection; cbn [fst].
  rewrite find_sock_update by reflexivity.
  unfold find_sock at 1; simpl; rewrite find_app_none; [simpl; rewrite String.eqb_refl; reflexivity| |].
  - exact Hn.
  - apply String.eqb_refl.
Qed.

Lemma find_first_other (uid o : string) pre post :
  Forall (fun q => q = uid) pre -> o <> uid ->
  find (fun p => negb (String.eqb p uid)) (pre ++ o :: post)%list = Some o.
Proof.
  intros Hpre Ho; induction Hpre as [|q pre Hq _ IH]; simpl.
  - replace (String.eqb o uid) with false by (symmetry; apply String.eqb_neq, Ho); reflexivity.
  - subst q; rewrite String.eqb_refl; exact IH.
Qed.

Lemma find_no_other (uid : string) l :
  Forall (fun q => q = uid) l -> find (fun p => negb (String.eqb p uid)) l = None.
Proof.
  intro H; induction H as [|q l Hq _ IH]; simpl; [reflexivity|].
  subst q; rewrite String.eqb_refl; exact IH.
Qed.

Lemma reachable_run vt evs st : reachable vt st -> reachable vt (run vt st evs).
Proof.
  revert st; induction evs as [|ev evs IH]; intros st H; simpl; [exact H|].
  apply IH, reach_step, H.
Qed.

(** ** Claims *)

(** C10: a chat channel key ["chat:" ++ c] never equals a personal channel
    key ["user:" ++ u]; so after a [join-chat] with any [chatId], a socket
    is in a personal room only if it already was before. *)
Theorem join_chat_never_personal_room vt st x chatId c u s' :
  chat_room c <> user_room u /\
  (In s' (socks (fst (step vt st (EJoinChat x chatId)))) ->
   In (user_room u) (s_rooms s') ->
   exists s, In s (socks st) /\ sid s = sid s' /\ In (user_room u) (s_rooms s)).
Proof.
  split; [apply chat_room_neq_user_room|].
  simpl; unfold on_sock; destruct (find_sock st x) as [s0|]; simpl.
  - intros Hin Hr; apply In_update_sock in Hin; destruct Hin as [s [Hs ->]].
    exists s; split; [exact Hs|].
    destruct (String.eqb (sid s) (sid s0)); simpl in *; split; auto.
    apply add_room_In in Hr; destruct Hr as [Hr|Hr]; [exact Hr|].
    exfalso; exact (chat_room_neq_user_room chatId u (eq_sym Hr)).
  - intros Hin Hr; exists s'; auto.
Qed.

(** C8: a handshake without a token ([undefined] or [""]) is rejected
    without calling [verifyToken], and the connection step changes
    nothing: no socket is admitted and [onlineUsers] gets no entry. *)
Theorem no_token_rejected vt st x token :
  token = None \/ token = Some EmptyString ->
  auth_middleware vt st token = ([], Rejected "Unauthorized") /\
  step vt st (EConnect x token) = (st, []).
Proof.
  intros [-> | ->]; simpl; unfold connect; simpl;
    (split; [reflexivity|]); destruct (find_sock st x); reflexivity.
Qed.

(** C1 (amended): a send to a chat that does not exist or that the sender
    is not a participant of leaves the state unchanged and emits one event,
    to the sender's socket only: [socket-error] when [chatId] is a
    well-formed ObjectId string, the generic [error] when it is not (the
    lookup itself throws). *)
Theorem send_message_rejected st s chatId text now :
  (forall c, In c (chats st) -> object_id_cast chatId = Some (chat_id c) ->
     forall u, object_id_cast (s_uid s) = Some u -> ~ In u (participants c)) ->
  object_id_cast (s_uid s) <> None ->
  fst (send_message st s chatId text now) = st /\
  (object_id_cast chatId <> None ->
     snd (send_message st s chatId text now) =
       [mkEmission (ToSocket (sid s)) "socket-error" (PErrorMessage "Chat not found")]) /\
  (object_id_cast chatId = None ->
     snd (send_message st s chatId text now) =
       [mkEmission (ToSocket (sid s)) "error" (PErrorMessage "Failed to send message")]) /\
  (forall c ev, sid c <> sid s -> delivered c ev (snd (send_message st s chatId text now)) = 0) /\
  length (snd (send_message st s chatId text now)) = 1 /\
  (forall e, In e (snd (send_message st s chatId text now)) -> target e = ToSocket (sid s)).
Proof.
  intros Hno Hu.
  assert (H : chat_find_one st chatId (s_uid s) =
              match object_id_cast chatId with Some _ => LNotFound | None => LFault end).
  { destruct (chat_find_one st chatId (s_uid s)) as [| |chat] eqn:F.
    - unfold chat_find_one in F.
      destruct (object_id_cast chatId), (object_id_cast (s_uid s));
        try (destruct (find _ _); discriminate); try congruence; reflexivity.
    - unfold chat_find_one in F.
      destruct (object_id_cast chatId), (object_id_cast (s_uid s));
        try discriminate; reflexivity.
    - apply chat_find_one_found in F; destruct F as [Hin [Hc [u [Hu' Hp]]]].
      exfalso; exact (Hno chat Hin Hc u Hu' Hp). }
  unfold send_message; rewrite H.
  destruct (object_id_cast chatId); simpl;
    (split; [reflexivity|]); (split; [intros; first [reflexivity | congruence]|]);
    (split; [intros; first [reflexivity | congruence]|]);
    (split; [|split; [reflexivity | intros e [<-|[]]; reflexivity]]);
    intros c ev Hc; apply delivered_other_socket; exact Hc.
Qed.

(** C9: a successful send appends the new message and sets the chat's
    [lastMessage] to it and [lastMessageAt] to the send time; the chat's
    other fields, its participants among them, and all other chats are
    unchanged. *)
Theorem send_message_updates_chat st s chatId text now chat :
  chat_find_one st chatId (s_uid s) = LFound chat ->
  let st' := fst (send_message st s chatId text now) in
  let chat' := mkChat (chat_id chat) (participants chat) (Some (next_msg st))
                      (Some now) (chat_createdAt chat) in
  messages st' = (messages st ++ [mkMessage (next_msg st) (chat_id chat) (s_uid s) text])%list /\
  In chat' (chats st') /\
  (forall c, In c (chats st') -> chat_id c = chat_id chat -> c = chat') /\
  (forall c, In c (chats st) -> chat_id c <> chat_id chat -> In c (chats st')) /\
  length (chats st') = length (chats st).
Proof.
  intro H; pose proof (chat_find_one_found _ _ _ _ H) as [Hin _].
  unfold send_message; rewrite H; cbn [fst chats messages].
  split; [reflexivity|]; split; [|split; [|split]].
  - apply in_map_iff; exists chat; rewrite String.eqb_refl; auto.
  - intros c Hc Hid; apply in_map_iff in Hc; destruct Hc as [c0 [<- Hc0]].
    destruct (String.eqb_spec (chat_id c0) (chat_id chat)); [reflexivity|].
    contradiction.
  - intros c Hc Hid; apply in_map_iff; exists c; split; [|exact Hc].
    destruct (String.eqb_spec (chat_id c) (chat_id chat)); [contradiction|reflexivity].
  - apply length_map.
Qed.


(** C3: right after an admitted connection [x] of [userId] the presence
    map sends [userId] to [x] (so [userId] is among its keys), and when
    that same connection later disconnects, after any run of other events,
    the entry of [userId] is gone. *)
Theorem admission_registers_presence vt st x token userId evs :
  find_sock st x = None ->
  snd (auth_middleware vt st token) = Accepted userId ->
  let st1 := fst (step vt st (EConnect x token)) in
  map_get (onlineUsers st1) userId = Some x /\
  In userId (map_keys (onlineUsers st1)) /\
  ((forall ev, In ev evs -> ev <> EDisconnect x) ->
   let st2 := fst (step vt (run vt st1 evs) (EDisconnect x)) in
   map_get (onlineUsers st2) userId = None /\
   ~ In userId (map_keys (onlineUsers st2))).
Proof.
  intros Hn Ha; rewrite (connect_admitted _ _ _ _ _ Hn Ha).
  assert (Hget : map_get (onlineUsers (fst (on_connection st x userId))) userId = Some x)
    by (unfold on_connection; cbn; apply map_get_set).
  split; [exact Hget|]; split; [apply map_keys_get; rewrite Hget; discriminate|].
  intros Hevs.
  destruct (run_keeps_sock vt evs _ x _ (on_connection_sock st x userId Hn) Hevs)
    as [s' [Hs' Hu]]; cbn [s_uid] in Hu.
  cbn [step]; unfold on_sock; rewrite Hs'; unfold disconnect; cbn [fst onlineUsers with_online with_socks]; rewrite Hu.
  split; [apply map_get_delete|]; rewrite map_keys_get, map_get_delete; tauto.
Qed.

(** C4 (amended): an admitted connection receives exactly one
    [online-users] event, and no other socket receives one; its list is
    the keys of the presence map as they were before this connection
    registered, so it holds the connection's own identity exactly when
    that identity already had an entry. *)
Theorem admission_online_users vt st x token userId :
  find_sock st x = None ->
  snd (auth_middleware vt st token) = Accepted userId ->
  let st1 := fst (step vt st (EConnect x token)) in
  let es := snd (step vt st (EConnect x token)) in
  exists s, find_sock st1 x = Some s /\ s_uid s = userId /\
  delivered s "online-users" es = 1 /\
  (forall c, In c (socks st1) -> sid c <> x -> delivered c "online-users" es = 0) /\
  (forall e, In e es -> event e = "online-users" ->
     payload e = POnlineUsers (map_keys (onlineUsers st))) /\
  (In userId (map_keys (onlineUsers st)) <-> map_get (onlineUsers st) userId <> None).
Proof.
  intros Hn Ha; rewrite (connect_admitted _ _ _ _ _ Hn Ha).
  exists (mkSock x userId [user_room userId]).
  split; [apply on_connection_sock, Hn|]; split; [reflexivity|].
  split.
  { unfold on_connection, delivered; cbn [snd filter event].
    rewrite String.eqb_refl; unfold receives at 1; cbn [target sid andb].
    rewrite String.eqb_refl; reflexivity. }
  split.
  { intros c _ Hc; unfold on_connection, delivered; cbn [snd filter event].
    rewrite String.eqb_refl; unfold receives at 1; cbn [target andb].
    replace (String.eqb (sid c) x) with false by (symmetry; apply String.eqb_neq, Hc).
    replace (String.eqb "user-online" "online-users") with false by reflexivity.
    reflexivity. }
  split; [|apply map_keys_get].
  intros e [<-|[<-|[]]]; [reflexivity|]; discriminate.
Qed.

(** C5: removal on disconnect is keyed by identity only: when another
    connected socket [c2] has the same identity as the departing [c1], the
    disconnect of [c1] still deletes the identity's entry and broadcasts
    [user-offline] for it, which [c2] receives while still connected. *)
Theorem disconnect_keyed_by_identity vt st x c1 c2 :
  find_sock st x = Some c1 ->
  In c2 (socks st) -> sid c2 <> x -> s_uid c2 = s_uid c1 ->
  let st' := fst (step vt st (EDisconnect x)) in
  let es := snd (step vt st (EDisconnect x)) in
  map_get (onlineUsers st') (s_uid c2) = None /\
  In c2 (socks st') /\
  es = [mkEmission (BroadcastExcept x) "user-offline" (PUserId (s_uid c2))] /\
  delivered c2 "user-offline" es = 1.
Proof.
  intros H1 Hin Hx Hu; pose proof (find_sock_In _ _ _ H1) as [_ Hs1].
  simpl; unfold on_sock; rewrite H1; unfold disconnect; cbn [fst snd onlineUsers socks with_online with_socks].
  rewrite Hu, Hs1; split; [apply map_get_delete|].
  split; [apply filter_In; split; [exact Hin|]; apply negb_true_iff, String.eqb_neq, Hx|].
  split; [reflexivity|].
  unfold delivered; cbn [filter event]; rewrite String.eqb_refl.
  unfold receives; cbn [target andb].
  replace (String.eqb (sid c2) x) with false by (symmetry; apply String.eqb_neq, Hx).
  reflexivity.
Qed.

(** C6: on a disconnect, every other connected socket receives exactly one
    [user-offline] event carrying the departing identity, and the
    departing socket receives none. *)
Theorem disconnect_broadcasts_offline vt st x d :
  find_sock st x = Some d ->
  let st' := fst (step vt st (EDisconnect x)) in
  let es := snd (step vt st (EDisconnect x)) in
  (forall c, In c (socks st) -> sid c <> x ->
     In c (socks st') /\ delivered c "user-offline" es = 1) /\
  delivered d "user-offline" es = 0 /\
  (forall e, In e es -> event e = "user-offline" /\ payload e = PUserId (s_uid d)) /\
  ~ In d (socks st').
Proof.
  intro Hd; pose proof (find_sock_In _ _ _ Hd) as [_ Hsd].
  simpl; unfold on_sock; rewrite Hd; unfold disconnect;
    cbn [fst snd socks with_online with_socks]; rewrite Hsd.
  split; [|split; [|split]].
  - intros c Hc Hx; split.
    + apply filter_In; split; [exact Hc|]; apply negb_true_iff, String.eqb_neq, Hx.
    + unfold delivered; cbn [filter event]; rewrite String.eqb_refl.
      unfold receives; cbn [target andb].
      replace (String.eqb (sid c) x) with false by (symmetry; apply String.eqb_neq, Hx).
      reflexivity.
  - unfold delivered; cbn [filter event]; rewrite String.eqb_refl.
    unfold receives; cbn [target andb]; rewrite Hsd, String.eqb_refl; reflexivity.
  - intros e [<-|[]]; split; reflexivity.
  - intro Hin; apply filter_In in Hin; destruct Hin as [_ Hq].
    rewrite Hsd, String.eqb_refl in Hq; discriminate.
Qed.

(** C7: a typing signal changes no state; it is sent to the chat room the
    signal names except the sender's socket, and, when the chat exists and
    has a participant other than the sender, to the personal room of the
    first such participant, and to nothing else.  The sender's socket
    receives neither. *)
Theorem typing_relay vt st x s chatId isTyping :
  reachable vt st -> find_sock st x = Some s ->
  let st' := fst (step vt st (ETyping x chatId isTyping)) in
  let es := snd (step vt st (ETyping x chatId isTyping)) in
  let p := PTyping (s_uid s) chatId isTyping in
  let e_chat := mkEmission (ToRoomExcept (chat_room chatId) x) "typing" p in
  st' = st /\
  (forall chat pre o post,
     chat_find_by_id st chatId = LFound chat ->
     participants chat = (pre ++ o :: post)%list ->
     Forall (fun q => q = s_uid s) pre -> o <> s_uid s ->
     es = [e_chat; mkEmission (ToRoom (user_room o)) "typing" p]) /\
  ((forall chat, chat_find_by_id st chatId = LFound chat ->
      Forall (fun q => q = s_uid s) (participants chat)) ->
   es = [e_chat]) /\
  delivered s "typing" es = 0.
Proof.
  intros Hr Hs; pose proof (find_sock_In _ _ _ Hs) as [Hin Hx].
  pose proof (reachable_rooms_inv _ _ Hr s Hin) as Hok.
  cbn [step]; unfold on_sock; rewrite Hs; unfold typing; cbn [fst snd]; rewrite Hx.
  split; [reflexivity|]; split; [|split].
  - intros chat pre o post Hc Hp Hpre Ho; rewrite Hc, Hp, (find_first_other _ _ _ _ Hpre Ho).
    reflexivity.
  - intro Hall; destruct (chat_find_by_id st chatId) as [| |chat]; try reflexivity.
    rewrite (find_no_other _ _ (Hall chat eq_refl)); reflexivity.
  - unfold delivered; cbn [filter event]; rewrite String.eqb_refl.
    unfold receives at 1; cbn [target]; rewrite <- Hx, String.eqb_refl, andb_false_r.
    destruct (chat_find_by_id st chatId) as [| |chat]; try reflexivity.
    destruct (find _ (participants chat)) as [o|] eqn:F; [|reflexivity].
    apply find_some in F; destruct F as [_ Fo]; apply negb_true_iff, String.eqb_neq in Fo.
    cbn [filter event]; rewrite String.eqb_refl; unfold receives; cbn [target andb].
    destruct (existsb (String.eqb (user_room o)) (s_rooms s)) eqn:E; [|reflexivity].
    apply existsb_eqb_In, (rooms_ok_user_room _ _ Hok) in E; contradiction.
Qed.

(** ** Witnesses and counterexamples on the concrete deployment *)

Import Fixture.

Lemma reachable_st_a : reachable verify st_a.
Proof. apply reachable_run, reach_init. Qed.

Lemma send_message_rejected_witness :
  (forall c, In c (chats st_a) -> object_id_cast c9 = Some (chat_id c) ->
     forall u, object_id_cast (s_uid sock1) = Some u -> ~ In u (participants c)) /\
  object_id_cast (s_uid sock1) <> None /\
  snd (send_message st_a sock1 c9 "hi" 6%Z) =
    [mkEmission (ToSocket "s1") "socket-error" (PErrorMessage "Chat not found")].
Proof.
  assert (H1 : forall c, In c (chats st_a) -> object_id_cast c9 = Some (chat_id c) ->
     forall u, object_id_cast (s_uid sock1) = Some u -> ~ In u (participants c)).
  { intros c Hc E; vm_compute in Hc; destruct Hc as [<-|[]]; vm_compute in E; discriminate. }
  assert (H2 : object_id_cast (s_uid sock1) <> None) by (vm_compute; discriminate).
  split; [exact H1|]; split; [exact H2|].
  apply (proj1 (proj2 (send_message_rejected st_a sock1 c9 "hi" 6%Z H1 H2))).
  vm_compute; discriminate.
Defined.

(** The chat id ["c2"] of the spec's scenario names no chat, but it is not
    an ObjectId string: the sender gets the generic [error] event and no
    [socket-error]. *)
Lemma send_message_rejected_counterexample :
  (forall c, In c (chats st_a) -> object_id_cast "c2" <> Some (chat_id c)) /\
  delivered sock1 "socket-error" (snd (send_message st_a sock1 "c2" "hi" 6%Z)) = 0 /\
  delivered sock1 "error" (snd (send_message st_a sock1 "c2" "hi" 6%Z)) = 1.
Proof.
  split; [intros c _; vm_compute; discriminate|].
  split; vm_compute; reflexivity.
Qed.




Lemma admission_registers_presence_witness :
  find_sock st0 "s1" = None /\
  snd (auth_middleware verify st0 (Some "tok1")) = Accepted u1 /\
  map_get (onlineUsers (fst (step verify st0 (EConnect "s1" (Some "tok1"))))) u1 = Some "s1" /\
  map_get (onlineUsers (fst (step verify
     (run verify (fst (step verify st0 (EConnect "s1" (Some "tok1")))) [ETyping "s1" c1 true])
     (EDisconnect "s1")))) u1 = None.
Proof.
  split; [reflexivity|]; split; [reflexivity|].
  pose proof (admission_registers_presence verify st0 "s1" (Some "tok1") u1
                [ETyping "s1" c1 true] eq_refl eq_refl) as [H1 [_ H3]].
  split; [exact H1|].
  apply (proj1 (H3 ltac:(intros ev [<-|[]]; discriminate))).
Defined.

Lemma admission_online_users_witness :
  find_sock st_one "s3" = None /\
  snd (auth_middleware verify st_one (Some "tok1")) = Accepted u1 /\
  exists s, find_sock (fst (step verify st_one (EConnect "s3" (Some "tok1")))) "s3" = Some s /\
    s_uid s = u1 /\
    delivered s "online-users" (snd (step verify st_one (EConnect "s3" (Some "tok1")))) = 1.
Proof.
  split; [reflexivity|]; split; [reflexivity|].
  destruct (admission_online_users verify st_one "s3" (Some "tok1") u1 eq_refl eq_refl)
    as [s [H1 [H2 [H3 _]]]].
  exists s; auto.
Defined.

(** A second connection of [u1] gets an [online-users] list holding [u1]
    itself. *)
Lemma admission_online_users_counterexample :
  exists s, find_sock (fst (step verify st_one (EConnect "s3" (Some "tok1")))) "s3" = Some s /\
    In (mkEmission (ToSocket "s3") "online-users" (POnlineUsers [s_uid s]))
       (snd (step verify st_one (EConnect "s3" (Some "tok1")))) /\
    delivered s "online-users" (snd (step verify st_one (EConnect "s3" (Some "tok1")))) = 1.
Proof.
  exists sock3; split; [reflexivity|]; split; [vm_compute; left; reflexivity|].
  vm_compute; reflexivity.
Qed.

Lemma disconnect_keyed_by_identity_witness :
  map_get (onlineUsers st_b) u1 = Some "s3" /\
  find_sock st_b "s1" = Some sock1 /\ In sock3 (socks st_b) /\ sid sock3 <> "s1" /\
  s_uid sock3 = s_uid sock1 /\
  map_get (onlineUsers (fst (step verify st_b (EDisconnect "s1")))) u1 = None /\
  In sock3 (socks (fst (step verify st_b (EDisconnect "s1")))).
Proof.
  assert (Hin : In sock3 (socks st_b)) by (vm_compute; right; left; reflexivity).
  assert (Hx : sid sock3 <> "s1") by (vm_compute; discriminate).
  split; [reflexivity|]; split; [reflexivity|]; split; [exact Hin|]; split; [exact Hx|].
  split; [reflexivity|].
  destruct (disconnect_keyed_by_identity verify st_b "s1" sock1 sock3 eq_refl Hin Hx eq_refl)
    as [H1 [H2 _]].
  split; [exact H1 | exact H2].
Defined.

Lemma disconnect_broadcasts_offline_witness :
  find_sock st_a "s1" = Some sock1 /\
  delivered sock2 "user-offline" (snd (step verify st_a (EDisconnect "s1"))) = 1 /\
  delivered sock1 "user-offline" (snd (step verify st_a (EDisconnect "s1"))) = 0.
Proof.
  split; [reflexivity|].
  destruct (disconnect_broadcasts_offline verify st_a "s1" sock1 eq_refl) as [H1 [H2 _]].
  split; [|exact H2].
  apply (H1 sock2); [vm_compute; right; left; reflexivity | vm_compute; discriminate].
Defined.

Lemma typing_relay_witness :
  reachable verify st_a /\ find_sock st_a "s1" = Some sock1 /\
  snd (step verify st_a (ETyping "s1" c1 true)) =
    [mkEmission (ToRoomExcept (chat_room c1) "s1") "typing" (PTyping u1 c1 true);
     mkEmission (ToRoom (user_room u2)) "typing" (PTyping u1 c1 true)] /\
  delivered sock1 "typing" (snd (step verify st_a (ETyping "s1" c1 true))) = 0.
Proof.
  split; [exact reachable_st_a|]; split; [reflexivity|].
  destruct (typing_relay verify st_a "s1" sock1 c1 true reachable_st_a eq_refl)
    as [_ [H2 [_ H4]]].
  split; [|exact H4].
  apply (H2 (mkChat c1 [u1; u2] None None 0%Z) [u1] u2 []); [reflexivity|reflexivity| |].
  - constructor; [reflexivity | constructor].
  - vm_compute; discriminate.
Defined.

Lemma no_token_rejected_witness :
  (None : option string) = None /\
  step verify st_one (EConnect "s5" None) = (st_one, []).
Proof.
  split; [reflexivity|].
  exact (proj2 (no_token_rejected verify st_one "s5" None (or_introl eq_refl))).
Defined.

Lemma send_message_updates_chat_witness :
  chat_find_one st_a c1 (s_uid sock1) = LFound (mkChat c1 [u1; u2] None None 0%Z) /\
  In (mkChat c1 [u1; u2] (Some 0) (Some 5%Z) 0%Z)
     (chats (fst (send_message st_a sock1 c1 "hi" 5%Z))).
Proof.
  split; [reflexivity|].
  exact (proj1 (proj2 (send_message_updates_chat st_a sock1 c1 "hi" 5%Z
                         (mkChat c1 [u1; u2] None None 0%Z) eq_refl))).
Defined.

Lemma join_chat_never_personal_room_witness :
  In sock2 (socks (fst (step verify st_a (EJoinChat "s2" c1)))) /\
  In (user_room u2) (s_rooms sock2) /\
  exists s, In s (socks st_a) /\ sid s = sid sock2 /\ In (user_room u2) (s_rooms s).
Proof.
  assert (H1 : In sock2 (socks (fst (step verify st_a (EJoinChat "s2" c1)))))
    by (vm_compute; right; left; reflexivity).
  assert (H2 : In (user_room u2) (s_rooms sock2)) by (left; reflexivity).
  split; [exact H1|]; split; [exact H2|].
  exact (proj2 (join_chat_never_personal_room verify st_a "s2" c1 c1 u2 sock2) H1 H2).
Defined.

(** ** Further properties of the gateway *)

Lemma map_get_set_other m k v u : u <> k -> map_get (map_set m k v) u = map_get m u.
Proof.
  intro Hu; induction m as [|[k' v'] m IH]; simpl.
  - destruct (String.eqb_spec u k); [contradiction | reflexivity].
  - destruct (String.eqb_spec k k'); simpl.
    + subst k'; destruct (String.eqb_spec u k); [contradiction | reflexivity].
    + destruct (String.eqb u k'); [reflexivity | exact IH].
Qed.

Lemma map_get_delete_other m k u : u <> k -> map_get (map_delete m k) u = map_get m u.
Proof.
  intro Hu; induction m as [|[k' v'] m IH]; simpl; [reflexivity|].
  destruct (String.eqb_spec k' k); simpl.
  - subst k'; destruct (String.eqb_spec u k); [contradiction | exact IH].
  - destruct (String.eqb u k'); [reflexivity | exact IH].
Qed.

Lemma In_keys_set m k v a : In a (map_keys (map_set m k v)) -> In a (map_keys m) \/ a = k.
Proof.
  induction m as [|[k' v'] m IH]; simpl.
  - intros [E|[]]; right; congruence.
  - destruct (String.eqb_spec k k'); simpl.
    + intros [E|H]; [right; congruence | left; right; exact H].
    + intros [E|H]; [left; left; exact E|]; destruct (IH H); auto.
Qed.

Lemma NoDup_keys_set m k v : NoDup (map_keys m) -> NoDup (map_keys (map_set m k v)).
Proof.
  induction m as [|[k' v'] m IH]; simpl; intro Hnd.
  - constructor; [intros [] | constructor].
  - inversion Hnd as [|? ? Hk' Hnd']; subst.
    destruct (String.eqb_spec k k'); simpl.
    + subst k'; constructor; assumption.
    + constructor; [|apply IH, Hnd'].
      intro Hin; apply In_keys_set in Hin; destruct Hin; [contradiction | congruence].
Qed.

Lemma NoDup_keys_delete m k : NoDup (map_keys m) -> NoDup (map_keys (map_delete m k)).
Proof.
  unfold map_delete, map_keys; induction m as [|[k' v'] m IH]; simpl; intro Hnd; [exact Hnd|].
  inversion Hnd as [|? ? Hk' Hnd']; subst.
  destruct (negb (String.eqb k' k)); simpl; [|apply IH, Hnd'].
  constructor; [|apply IH, Hnd'].
  intro Hin; apply Hk'; apply in_map_iff in Hin; destruct Hin as [[a b] [E Ha]].
  apply filter_In in Ha; apply in_map_iff; exists (a, b); tauto.
Qed.

Lemma map_sid_update st x f :
  (forall s, sid (f s) = sid s) -> map sid (socks (update_sock st x f)) = map sid (socks st).
Proof.
  intro Hf; simpl; rewrite map_map; apply map_ext; intro s.
  destruct (String.eqb (sid s) x); [apply Hf | reflexivity].
Qed.

Lemma NoDup_map_filter {A B} (g : A -> B) (p : A -> bool) l :
  NoDup (map g l) -> NoDup (map g (filter p l)).
Proof.
  induction l as [|a l IH]; simpl; intro Hnd; [exact Hnd|].
  inversion Hnd as [|? ? Ha Hnd']; subst.
  destruct (p a); simpl; [|apply IH, Hnd'].
  constructor; [|apply IH, Hnd'].
  intro Hin; apply Ha; apply in_map_iff in Hin; destruct Hin as [b [E Hb]].
  apply filter_In in Hb; apply in_map_iff; exists b; tauto.
Qed.

(** Socket ids of the connected sockets are distinct. *)
Lemma step_sids_NoDup vt st ev :
  NoDup (map sid (socks st)) -> NoDup (map sid (socks (fst (step vt st ev)))).
Proof.
  intro Hnd; destruct ev as [x token|x c|x c|x c text now|x c b|x]; simpl; unfold on_sock.
  - unfold connect; destruct (find_sock st x) eqn:F; [exact Hnd|].
    destruct (snd (auth_middleware vt st token)); [|exact Hnd].
    unfold on_connection; cbn [fst]; rewrite map_sid_update by reflexivity.
    simpl; rewrite map_app; simpl; apply NoDup_app; [exact Hnd | constructor; [intros [] | constructor]|].
    intros y Hy [E|[]]; subst y; apply in_map_iff in Hy; destruct Hy as [s [E Hs]].
    exact (find_sock_None _ _ _ F Hs E).
  - destruct (find_sock st x); [unfold join_chat; cbn [fst]; rewrite map_sid_update by reflexivity|];
      exact Hnd.
  - destruct (find_sock st x); [unfold leave_chat; cbn [fst]; rewrite map_sid_update by reflexivity|];
      exact Hnd.
  - destruct (find_sock st x); [rewrite send_message_socks|]; exact Hnd.
  - destruct (find_sock st x); exact Hnd.
  - destruct (find_sock st x); [unfold disconnect; simpl; apply NoDup_map_filter|]; exact Hnd.
Qed.

Lemma reachable_sids_NoDup vt st : reachable vt st -> NoDup (map sid (socks st)).
Proof.
  induction 1; [constructor | apply step_sids_NoDup; assumption].
Qed.

Lemma NoDup_sid_eq l a b :
  NoDup (map sid l) -> In a l -> In b l -> sid a = sid b -> a = b.
Proof.
  induction l as [|c l IH]; simpl; [intros _ []|]; intros Hnd Ha Hb E.
  inversion Hnd as [|? ? Hc Hnd']; subst.
  destruct Ha as [<-|Ha], Hb as [<-|Hb]; auto.
  - exfalso; apply Hc; rewrite E; apply in_map, Hb.
  - exfalso; apply Hc; rewrite <- E; apply in_map, Ha.
Qed.

Lemma update_sock_keeps st x f s :
  In s (socks st) -> (forall s0, sid (f s0) = sid s0 /\ s_uid (f s0) = s_uid s0) ->
  exists s', In s' (socks (update_sock st x f)) /\ sid s' = sid s /\ s_uid s' = s_uid s.
Proof.
  intros Hs Hf; exists (if String.eqb (sid s) x then f s else s); split.
  - simpl; apply in_map_iff; eauto.
  - destruct (String.eqb (sid s) x); [apply Hf | auto].
Qed.

Lemma send_message_online st s chatId text now :
  onlineUsers (fst (send_message st s chatId text now)) = onlineUsers st.
Proof. unfold send_message; destruct (chat_find_one st chatId (s_uid s)); reflexivity. Qed.

Lemma step_presence vt st ev :
  NoDup (map sid (socks st)) -> NoDup (map_keys (onlineUsers st)) -> presence_inv st ->
  NoDup (map_keys (onlineUsers (fst (step vt st ev)))) /\ presence_inv (fst (step vt st ev)).
Proof.
  intros Hsid Hkeys Hinv.
  assert (Hupd : forall st0 y (f : Sock -> Sock),
     (forall s0, sid (f s0) = sid s0 /\ s_uid (f s0) = s_uid s0) ->
     onlineUsers st0 = onlineUsers st -> (forall s, In s (socks st) -> In s (socks st0)) ->
     NoDup (map_keys (onlineUsers (update_sock st0 y f))) /\ presence_inv (update_sock st0 y f)).
  { intros st0 y f Hf Ho Hsub; simpl; rewrite Ho; split; [exact Hkeys|].
    intros u x Hux; simpl in Hux; rewrite Ho in Hux.
    destruct (Hinv u x Hux) as [s [Hs [E1 E2]]].
    destruct (update_sock_keeps st0 y f s (Hsub s Hs) Hf) as [s' [H1 [H2 H3]]].
    exists s'; split; [exact H1 | split; congruence]. }
  destruct ev as [x token|x c|x c|x c text now|x c b|x]; simpl; unfold on_sock.
  - unfold connect; destruct (find_sock st x) eqn:F; [auto|].
    destruct (snd (auth_middleware vt st token)) as [userId|]; [|auto].
    unfold on_connection; cbn [fst]; simpl; split; [apply NoDup_keys_set, Hkeys|].
    intros u y Hu; simpl in Hu.
    assert (Hnew : exists s, In s (socks st ++ [mkSock x userId []]) /\ sid s = y /\ s_uid s = u).
    { destruct (String.eqb_spec u userId) as [->|Hne].
      - rewrite map_get_set in Hu; injection Hu as <-.
        exists (mkSock x userId []); split; [apply in_or_app; right; left|]; auto.
      - rewrite map_get_set_other in Hu by exact Hne.
        destruct (Hinv u y Hu) as [s [Hs E]]; exists s; split; [apply in_or_app; left|]; auto. }
    destruct Hnew as [s [Hs [E1 E2]]].
    assert (Hs' : In s (socks (with_online (with_socks st (socks st ++ [mkSock x userId []]))
                          (map_set (onlineUsers st) userId x)))) by exact Hs.
    destruct (update_sock_keeps _ x (fun s0 => mkSock (sid s0) (s_uid s0)
                (add_room (user_room userId) (s_rooms s0))) s Hs' (fun s0 => conj eq_refl eq_refl))
      as [s' [H1 [H2 H3]]].
    exists s'; split; [exact H1 | split; congruence].
  - destruct (find_sock st x); [|auto]; apply Hupd; auto.
  - destruct (find_sock st x); [|auto]; apply Hupd; auto.
  - destruct (find_sock st x) as [s|]; [|auto].
    rewrite send_message_online; split; [exact Hkeys|].
    intros u y Hu; rewrite send_message_online in Hu; rewrite send_message_socks; auto.
  - destruct (find_sock st x); auto.
  - destruct (find_sock st x) as [d|] eqn:F; [|auto].
    pose proof (find_sock_In _ _ _ F) as [Hd _].
    unfold disconnect; simpl; split; [apply NoDup_keys_delete, Hkeys|].
    intros u y Hu; simpl in Hu; destruct (String.eqb_spec u (s_uid d)) as [->|Hne].
    + rewrite map_get_delete in Hu; discriminate.
    + rewrite map_get_delete_other in Hu by exact Hne.
      destruct (Hinv u y Hu) as [s [Hs [E1 E2]]]; exists s; split; [|auto].
      apply filter_In; split; [exact Hs|]; apply negb_true_iff, String.eqb_neq.
      intro E; apply Hne; rewrite <- E2, (NoDup_sid_eq _ _ _ Hsid Hs Hd E); reflexivity.
Qed.

Lemma reachable_presence vt st :
  reachable vt st -> NoDup (map_keys (onlineUsers st)) /\ presence_inv st.
Proof.
  intro Hr; induction Hr as [us cs ms n|st ev Hr IH].
  - split; [constructor | intros u x H; discriminate].
  - apply step_presence; [exact (reachable_sids_NoDup _ _ Hr) | apply IH | apply IH].
Qed.

(** X2: every entry of the presence map names a connected socket
    authenticated as that identity (no entry outlives its socket). *)
Theorem presence_entry_connected vt st u x :
  reachable vt st -> map_get (onlineUsers st) u = Some x ->
  exists s, In s (socks st) /\ sid s = x /\ s_uid s = u.
Proof. intros Hr Hu; exact (proj2 (reachable_presence _ _ Hr) u x Hu). Qed.

(** X3: whatever [join-chat] and [leave-chat] requests it sends, a
    connected socket is in its own personal room and in no other user's. *)
Theorem personal_room_membership vt st s u :
  reachable vt st -> In s (socks st) ->
  In (user_room u) (s_rooms s) <-> u = s_uid s.
Proof.
  intros Hr Hs; apply rooms_ok_user_room, (reachable_rooms_inv _ _ Hr), Hs.
Qed.

(** ** HTTP API *)

Lemma In_firstn_In {A} n (l : list A) x : In x (firstn n l) -> In x l.
Proof. intro H; rewrite <- (firstn_skipn n l); apply in_or_app; left; exact H. Qed.

Lemma NoDup_map_eq {A B} (f : A -> B) l a b :
  NoDup (map f l) -> In a l -> In b l -> f a = f b -> a = b.
Proof.
  induction l as [|x l IH]; cbn [map In]; intros Hn Ha Hb He; [contradiction|].
  inversion Hn as [|? ? Hx Hn']; subst.
  destruct Ha as [<-|Ha], Hb as [<-|Hb]; auto.
  - exfalso; apply Hx; rewrite He; apply in_map; exact Hb.
  - exfalso; apply Hx; rewrite <- He; apply in_map; exact Ha.
Qed.

Lemma protectedRoute_ok st clerk userId :
  protectedRoute st (Some clerk) = Ok userId ->
  exists r, find (fun u => String.eqb (clerkId u) clerk) (users st) = Some r /\
            userId = user_id r.
Proof.
  unfold protectedRoute; destruct (find _ _) as [r|]; intro H; inversion H; eauto.
Qed.

Lemma canonical_requester st clerk userId :
  Forall (fun u => canonical_id (user_id u)) (users st) ->
  protectedRoute st (Some clerk) = Ok userId -> object_id_cast userId = Some userId.
Proof.
  intros Hc Hp; destruct (protectedRoute_ok _ _ _ Hp) as (r & F & ->).
  apply find_some in F as [Hr _]; rewrite Forall_forall in Hc; exact (Hc r Hr).
Qed.

Lemma chat_find_pair_casts st u p c :
  chat_find_pair st u p = LFound c ->
  exists x y, object_id_cast u = Some x /\ object_id_cast p = Some y.
Proof.
  unfold chat_find_pair.
  destruct (object_id_cast u) as [x|], (object_id_cast p) as [y|]; try discriminate.
  intros _; eauto.
Qed.

Lemma chat_find_pair_none st u p x y :
  object_id_cast u = Some x -> object_id_cast p = Some y ->
  chat_find_pair st u p = LNotFound ->
  find (fun c => existsb (String.eqb x) (participants c)
                 && existsb (String.eqb y) (participants c)) (chats st) = None.
Proof.
  unfold chat_find_pair; intros -> ->; destruct (find _ _); [discriminate | reflexivity].
Qed.

Lemma getOrCreateChat_found nc st u p c :
  p <> "" -> u <> p -> chat_find_pair st u p = LFound c ->
  getOrCreateChat nc st u p = (st, Ok (format_chat st u c)).
Proof.
  intros Hp Hu Hf; destruct (chat_find_pair_casts _ _ _ _ Hf) as (x & y & Cx & Cy).
  unfold getOrCreateChat; rewrite Cy, Hf.
  destruct (String.eqb_spec p ""); [contradiction|].
  destruct (String.eqb_spec u p); [contradiction | reflexivity].
Qed.

Lemma getOrCreateChat_cases nc st u p :
  (exists s m, getOrCreateChat nc st u p = (st, Fail s m)) \/
  getOrCreateChat nc st u p = (st, Forward) \/
  (p <> "" /\ u <> p /\ exists c, chat_find_pair st u p = LFound c /\
     getOrCreateChat nc st u p = (st, Ok (format_chat st u c))) \/
  (p <> "" /\ u <> p /\ exists x y, object_id_cast u = Some x /\ object_id_cast p = Some y /\
     chat_find_pair st u p = LNotFound /\
     getOrCreateChat nc st u p =
       (with_chats st (chats st ++ [nc [x; y]]),
        Ok (format_chat (with_chats st (chats st ++ [nc [x; y]])) u (nc [x; y])))).
Proof.
  unfold getOrCreateChat.
  destruct (String.eqb_spec p ""); [left; eauto|].
  destruct (object_id_cast p) as [y|] eqn:Cy; [|left; eauto].
  destruct (String.eqb_spec u p); [left; eauto|].
  destruct (chat_find_pair st u p) as [ | | c] eqn:Cf.
  - right; left; reflexivity.
  - destruct (object_id_cast u) as [x|] eqn:Cx; [|right; left; reflexivity].
    right; right; right; split; [assumption|]; split; [assumption|].
    exists x, y; auto.
  - right; right; left; split; [assumption|]; split; [assumption|]; eauto.
Qed.

Lemma chat_find_pair_created nc st u p x y :
  chat_keeps nc -> object_id_cast u = Some x -> object_id_cast p = Some y ->
  chat_find_pair st u p = LNotFound ->
  chat_find_pair (with_chats st (chats st ++ [nc [x; y]])) u p = LFound (nc [x; y]).
Proof.
  intros Hk Cx Cy Cf; pose proof (chat_find_pair_none _ _ _ _ _ Cx Cy Cf) as F.
  unfold chat_find_pair; rewrite Cx, Cy; unfold with_chats; cbn [chats].
  rewrite (find_app_none _ _ _ F); [reflexivity|].
  rewrite Hk; apply andb_true_intro; split; apply existsb_eqb_In; simpl; auto.
Qed.

(** X6: [GET /api/users] never lists the signed-in user, lists at most 50
    users, and lists only profiles of stored users. *)
Theorem users_route_excludes_requester st clerk userId ps :
  Forall (fun u => canonical_id (user_id u)) (users st) ->
  protectedRoute st (Some clerk) = Ok userId ->
  route_users st (Some clerk) = Ok ps ->
  (length ps <= 50)%nat /\
  forall p, In p ps -> sp_id p <> userId /\ exists u, In u (users st) /\ p = profile u.
Proof.
  intros Hc Hp Hr; unfold route_users, guarded in Hr; rewrite Hp in Hr.
  unfold getUsers in Hr; rewrite (canonical_requester _ _ _ Hc Hp) in Hr.
  remember (firstn 50 _) as l eqn:El in Hr; injection Hr as <-; split.
  - rewrite length_map, El, length_firstn; lia.
  - intros p Hin; apply in_map_iff in Hin as (u & <- & Hu); rewrite El in Hu.
    apply In_firstn_In, filter_In in Hu as [Hu He].
    split; [|eauto]; unfold profile; cbn [sp_id].
    destruct (String.eqb_spec (user_id u) userId); [discriminate | assumption].
Qed.

(** X7: when at most 50 other users are stored, [GET /api/users] lists
    every one of them. *)
Theorem users_route_lists_others st clerk userId :
  Forall (fun u => canonical_id (user_id u)) (users st) ->
  protectedRoute st (Some clerk) = Ok userId ->
  (length (filter (fun u => negb (String.eqb (user_id u) userId)) (users st)) <= 50)%nat ->
  exists ps, route_users st (Some clerk) = Ok ps /\
    forall u, In u (users st) -> user_id u <> userId -> In (profile u) ps.
Proof.
  intros Hc Hp Hl; unfold route_users, guarded; rewrite Hp; unfold getUsers.
  rewrite (canonical_requester _ _ _ Hc Hp).
  eexists; split; [reflexivity|]; intros u Hu Hne.
  apply in_map; rewrite firstn_all2 by exact Hl.
  apply filter_In; split; [exact Hu|].
  destruct (String.eqb_spec (user_id u) userId); [contradiction | reflexivity].
Qed.

(** X8: behind [protectedRoute], [GET /api/auth/me] answers the signed-in
    user's own document: it never answers 404. *)
Theorem route_me_signed_in st clerk r :
  Forall (fun u => canonical_id (user_id u)) (users st) ->
  NoDup (map user_id (users st)) ->
  find (fun u => String.eqb (clerkId u) clerk) (users st) = Some r ->
  route_me st (Some clerk) = Ok r.
Proof.
  intros Hc Hn F; unfold route_me, guarded, protectedRoute; rewrite F.
  apply find_some in F as [Hr _].
  unfold getMe, user_find_by_id.
  rewrite Forall_forall in Hc; rewrite (Hc r Hr).
  destruct (find (fun u => String.eqb (user_id u) (user_id r)) (users st)) as [u|] eqn:G.
  - apply find_some in G as [Hu Hq]; apply String.eqb_eq in Hq.
    rewrite (NoDup_map_eq _ _ _ _ Hn Hu Hr Hq); reflexivity.
  - exfalso; apply (find_none _ _ G) in Hr; rewrite String.eqb_refl in Hr; discriminate.
Qed.

(** X9: repeating [POST /api/chats/with/:participantId] after a success
    gives the same answer and leaves the store as the first call left it:
    a second chat is never created. *)
Theorem getOrCreateChat_idempotent nc1 nc2 st userId p cv :
  chat_keeps nc1 ->
  snd (getOrCreateChat nc1 st userId p) = Ok cv ->
  getOrCreateChat nc2 (fst (getOrCreateChat nc1 st userId p)) userId p =
  (fst (getOrCreateChat nc1 st userId p), Ok cv).
Proof.
  intro Hk.
  destruct (getOrCreateChat_cases nc1 st userId p)
    as [(s & m & E) | [E | [(Hp & Hu & c & Hf & E) | (Hp & Hu & x & y & Cx & Cy & Hf & E)]]];
    rewrite E; cbn [fst snd]; intro Hok; try discriminate.
  - injection Hok as <-; apply getOrCreateChat_found; assumption.
  - injection Hok as <-; apply getOrCreateChat_found; try assumption.
    apply chat_find_pair_created; assumption.
Qed.

(** X10: [getOrCreateChat] writes the store only by appending one chat
    [{ participants: [userId, participantId] }] (both ids cast), and only
    when the two ids differ as strings and no stored chat has both. *)
Theorem getOrCreateChat_store nc st userId p :
  fst (getOrCreateChat nc st userId p) = st \/
  exists x y, object_id_cast userId = Some x /\ object_id_cast p = Some y /\
    userId <> p /\
    (forall c, In c (chats st) -> ~ (In x (participants c) /\ In y (participants c))) /\
    fst (getOrCreateChat nc st userId p) = with_chats st (chats st ++ [nc [x; y]]).
Proof.
  destruct (getOrCreateChat_cases nc st userId p)
    as [(s & m & E) | [E | [(Hp & Hu & c & Hf & E) | (Hp & Hu & x & y & Cx & Cy & Hf & E)]]];
    rewrite E; cbn [fst]; try (left; reflexivity).
  right; exists x, y; repeat split; try assumption.
  intros c Hc [Hx Hy]; pose proof (chat_find_pair_none _ _ _ _ _ Cx Cy Hf) as F.
  apply (find_none _ _ F) in Hc.
  rewrite (proj2 (existsb_eqb_In _ _) Hx), (proj2 (existsb_eqb_In _ _) Hy) in Hc.
  discriminate.
Qed.

Lemma find_ext_eq {A} (f g : A -> bool) l :
  (forall a, f a = g a) -> find f l = find g l.
Proof.
  intro H; induction l as [|a l IH]; cbn [find]; [reflexivity|].
  rewrite H; destruct (g a); [reflexivity | exact IH].
Qed.

Lemma populate_participants_In us ps q :
  In q (populate_participants us ps) ->
  exists u, In u us /\ In (user_id u) ps /\ q = profile u.
Proof.
  unfold populate_participants; intro H; apply in_flat_map in H as (p & Hp & Hq).
  destruct (find (fun u => String.eqb (user_id u) p) us) as [u|] eqn:F; [|destruct Hq].
  destruct Hq as [<-|[]]; apply find_some in F as [Hu He]; apply String.eqb_eq in He.
  subst p; eauto.
Qed.

Lemma find_user_id us u :
  NoDup (map user_id us) -> In u us ->
  find (fun v => String.eqb (user_id v) (user_id u)) us = Some u.
Proof.
  intros Hn Hu; destruct (find _ us) as [v|] eqn:G.
  - apply find_some in G as [Hv Hq]; apply String.eqb_eq in Hq.
    rewrite (NoDup_map_eq _ _ _ _ Hn Hv Hu Hq); reflexivity.
  - exfalso; apply (find_none _ _ G) in Hu; rewrite String.eqb_refl in Hu; discriminate.
Qed.

Lemma authCallback_ok_find getUser create st clerk n u :
  create_keeps create ->
  snd (authCallback getUser create st (Some clerk) n) = Ok u ->
  clerk <> "" /\
  find (fun v => String.eqb (clerkId v) clerk)
       (users (fst (authCallback getUser create st (Some clerk) n))) = Some u.
Proof.
  intros Hk; destruct clerk as [|a s]; [cbn; discriminate|].
  intro Hok; split; [discriminate|]; revert Hok; unfold authCallback; cbn beta iota.
  destruct (find _ (users st)) as [v|] eqn:F.
  - cbn [fst snd]; intro H; injection H as <-; exact F.
  - destruct (getUser (String a s)) as [cu|]; cbn [fst snd]; [|discriminate].
    destruct (create n (new_user_doc (String a s) cu)) as [v|] eqn:Cr;
      cbn [fst snd]; [|discriminate].
    intro H; injection H as <-; unfold with_users; cbn [users].
    apply find_app_none; [exact F|].
    destruct (Hk _ _ _ Cr) as [_ ->]; apply String.eqb_refl.
Qed.

Lemma list_ascii_of_string_app s t :
  list_ascii_of_string (s ++ t) = (list_ascii_of_string s ++ list_ascii_of_string t)%list.
Proof. induction s as [|c s IH]; cbn; [reflexivity | rewrite IH; reflexivity]. Qed.

Lemma drop_ws_trailing l c :
  is_ws c = true ->
  drop_ws (rev (drop_ws (l ++ [c]))) = drop_ws (rev (drop_ws l)).
Proof.
  intro Hc; induction l as [|a l IH]; cbn [app drop_ws].
  - rewrite Hc; reflexivity.
  - destruct (is_ws a) eqn:Ha; [exact IH|].
    cbn [rev]; rewrite rev_app_distr; cbn [rev app drop_ws]; rewrite Hc; reflexivity.
Qed.

Lemma trim_trailing_space s : trim (s ++ " ") = trim s.
Proof.
  unfold trim; rewrite list_ascii_of_string_app; cbn [list_ascii_of_string].
  rewrite drop_ws_trailing by reflexivity; reflexivity.
Qed.

(** X11: the self-chat check compares the raw strings, so a request with
    another spelling of one's own id (upper-case hexadecimal digits) is
    not refused.  The lookup [$all: [userId, userId]] then matches any chat
    of the requester: the first one is answered and nothing is created; if
    the requester has no chat, a chat whose two participants are both the
    requester is created and answered with [participant: null]. *)
Theorem getOrCreateChat_self_other_spelling nc st userId p :
  chat_keeps nc ->
  canonical_id userId -> object_id_cast p = Some userId -> p <> userId ->
  match find (fun c => existsb (String.eqb userId) (participants c)) (chats st) with
  | Some c => getOrCreateChat nc st userId p = (st, Ok (format_chat st userId c))
  | None =>
      exists cv,
        getOrCreateChat nc st userId p =
          (with_chats st (chats st ++ [nc [userId; userId]]), Ok cv) /\
        cv_participant cv = None
  end.
Proof.
  unfold canonical_id; intros Hk Cu Cp Hne.
  assert (Hp : p <> "") by (intros ->; discriminate Cp).
  assert (Hf : find (fun c => existsb (String.eqb userId) (participants c)
                              && existsb (String.eqb userId) (participants c)) (chats st) =
               find (fun c => existsb (String.eqb userId) (participants c)) (chats st))
    by (apply find_ext_eq; intro c; apply andb_diag).
  destruct (find (fun c => existsb (String.eqb userId) (participants c)) (chats st))
    as [c|] eqn:F.
  - apply getOrCreateChat_found; [exact Hp | congruence|].
    unfold chat_find_pair; rewrite Cu, Cp, Hf; reflexivity.
  - unfold getOrCreateChat.
    destruct (String.eqb_spec p "") as [E|_]; [contradiction|].
    rewrite Cp; destruct (String.eqb_spec userId p) as [E|_]; [congruence|].
    assert (G : chat_find_pair st userId p = LNotFound)
      by (unfold chat_find_pair; rewrite Cu, Cp, Hf; reflexivity).
    rewrite G, Cu; eexists; split; [reflexivity|].
    unfold format_chat; cbn [cv_participant]; rewrite Hk.
    destruct (find _ (populate_participants _ _)) as [q|] eqn:Q; [|reflexivity].
    apply find_some in Q as [Hq Hb]; apply populate_participants_In in Hq as (u & _ & Hu & ->).
    cbn [In] in Hu; assert (E : userId = user_id u) by tauto.
    unfold profile in Hb; cbn [sp_id] in Hb; rewrite <- E, String.eqb_refl in Hb; discriminate.
Qed.

(** X13: in a chat between two stored users, each of them is shown the
    other as [participant]. *)
Theorem format_chat_other st c ua ub :
  NoDup (map user_id (users st)) -> In ua (users st) -> In ub (users st) ->
  participants c = [user_id ua; user_id ub] -> user_id ua <> user_id ub ->
  cv_participant (format_chat st (user_id ua) c) = Some (profile ub) /\
  cv_participant (format_chat st (user_id ub) c) = Some (profile ua).
Proof.
  intros Hn Ha Hb Hp Hne; unfold format_chat; cbn [cv_participant]; rewrite Hp.
  unfold populate_participants; cbn [flat_map].
  rewrite (find_user_id _ _ Hn Ha), (find_user_id _ _ Hn Hb); cbn [app find].
  unfold profile; cbn [sp_id]; rewrite !String.eqb_refl; cbn [negb].
  destruct (String.eqb_spec (user_id ub) (user_id ua)); [congruence|].
  destruct (String.eqb_spec (user_id ua) (user_id ub)); [congruence|].
  split; reflexivity.
Qed.

(** X14: after [POST /api/auth/callback] answers a user, calling it again
    with the same session answers the same user and creates nobody. *)
Theorem authCallback_idempotent getUser create st clerk n1 n2 u :
  create_keeps create ->
  snd (authCallback getUser create st (Some clerk) n1) = Ok u ->
  authCallback getUser create (fst (authCallback getUser create st (Some clerk) n1))
               (Some clerk) n2 =
  (fst (authCallback getUser create st (Some clerk) n1), Ok u).
Proof.
  intros Hk Hok; destruct (authCallback_ok_find _ _ _ _ _ _ Hk Hok) as [Hne F].
  remember (fst (authCallback getUser create st (Some clerk) n1)) as st' eqn:E; clear E.
  destruct clerk as [|a s]; [contradiction|].
  unfold authCallback; cbn beta iota; rewrite F; reflexivity.
Qed.

(** X15: once [POST /api/auth/callback] has answered a user, the
    protected routes accept the same session as that user. *)
Theorem authCallback_then_protectedRoute getUser create st clerk n u :
  create_keeps create ->
  snd (authCallback getUser create st (Some clerk) n) = Ok u ->
  protectedRoute (fst (authCallback getUser create st (Some clerk) n)) (Some clerk) =
  Ok (user_id u).
Proof.
  intros Hk Hok; destruct (authCallback_ok_find _ _ _ _ _ _ Hk Hok) as [_ F].
  unfold protectedRoute; rewrite F; reflexivity.
Qed.


(** X17: a Clerk user with a first name and no last name gets the first
    name, trimmed, as [name]: the separating space is not kept. *)
Theorem derive_name_no_last_name cu f :
  firstName cu = Some f -> f <> "" -> or_empty (lastName cu) = "" ->
  derive_name cu = Some (trim f).
Proof.
  intros Hf Hne Hl; unfold derive_name, truthy; rewrite Hf.
  destruct (String.eqb_spec f "") as [E|_]; [contradiction|]; cbn [negb or_empty].
  rewrite Hl; f_equal; apply trim_trailing_space.
Qed.

(** ** Instances of the further properties on the concrete deployment *)

Lemma reachable_st_b : reachable verify st_b.
Proof. apply reachable_run, reachable_run, reach_init. Qed.

Lemma st0_canonical : Forall (fun u => canonical_id (user_id u)) (users st0).
Proof.
  apply Forall_forall; intros u Hu; destruct Hu as [<-|[<-|[]]]; vm_compute; reflexivity.
Qed.

Lemma st0_user_ids : NoDup (map user_id (users st0)).
Proof.
  vm_compute; constructor; [intros [H|[]]; discriminate | constructor; [intros []|constructor]].
Qed.


Lemma new_chat_keeps : chat_keeps new_chat.
Proof. intro ps; reflexivity. Qed.

Lemma create_user_keeps : create_keeps create_user.
Proof.
  intros i d u; unfold create_user; destruct (nu_name d), (nu_email d); intro H;
    try discriminate; injection H as <-; split; reflexivity.
Qed.

Lemma presence_entry_connected_witness :
  reachable verify st_b /\ map_get (onlineUsers st_b) u1 = Some "s3" /\
  exists s, In s (socks st_b) /\ sid s = "s3" /\ s_uid s = u1.
Proof.
  assert (H : map_get (onlineUsers st_b) u1 = Some "s3") by (vm_compute; reflexivity).
  split; [exact reachable_st_b|]; split; [exact H|].
  exact (presence_entry_connected verify st_b u1 "s3" reachable_st_b H).
Defined.

Lemma personal_room_membership_witness :
  reachable verify st_a /\ In sock2 (socks st_a) /\
  (In (user_room u1) (s_rooms sock2) <-> u1 = s_uid sock2).
Proof.
  assert (H : In sock2 (socks st_a)) by (vm_compute; right; left; reflexivity).
  split; [exact reachable_st_a|]; split; [exact H|].
  exact (personal_room_membership verify st_a sock2 u1 reachable_st_a H).
Defined.

Lemma users_route_excludes_requester_witness :
  protectedRoute st0 (Some "clerk_1") = Ok u1 /\
  route_users st0 (Some "clerk_1") = Ok [profile bob] /\
  (length [profile bob] <= 50)%nat /\
  forall p, In p [profile bob] -> sp_id p <> u1 /\ exists u, In u (users st0) /\ p = profile u.
Proof.
  assert (H1 : protectedRoute st0 (Some "clerk_1") = Ok u1) by (vm_compute; reflexivity).
  assert (H2 : route_users st0 (Some "clerk_1") = Ok [profile bob]) by (vm_compute; reflexivity).
  split; [exact H1|]; split; [exact H2|].
  exact (users_route_excludes_requester st0 "clerk_1" u1 [profile bob] st0_canonical H1 H2).
Defined.

Lemma users_route_lists_others_witness :
  protectedRoute st0 (Some "clerk_1") = Ok u1 /\
  (length (filter (fun u => negb (String.eqb (user_id u) u1)) (users st0)) <= 50)%nat /\
  exists ps, route_users st0 (Some "clerk_1") = Ok ps /\
    forall u, In u (users st0) -> user_id u <> u1 -> In (profile u) ps.
Proof.
  assert (H1 : protectedRoute st0 (Some "clerk_1") = Ok u1) by (vm_compute; reflexivity).
  assert (H2 : (length (filter (fun u => negb (String.eqb (user_id u) u1)) (users st0)) <= 50)%nat)
    by (vm_compute; lia).
  split; [exact H1|]; split; [exact H2|].
  exact (users_route_lists_others st0 "clerk_1" u1 st0_canonical H1 H2).
Defined.

Lemma route_me_signed_in_witness :
  find (fun u => String.eqb (clerkId u) "clerk_2") (users st0) = Some bob /\
  route_me st0 (Some "clerk_2") = Ok bob.
Proof.
  assert (H : find (fun u => String.eqb (clerkId u) "clerk_2") (users st0) = Some bob)
    by (vm_compute; reflexivity).
  split; [exact H|].
  exact (route_me_signed_in st0 "clerk_2" bob st0_canonical st0_user_ids H).
Defined.

Lemma getOrCreateChat_idempotent_witness :
  chat_keeps new_chat /\
  snd (getOrCreateChat new_chat st0 u1 u3) = Ok (mkChatView c2 None None (Some 1%Z) 1%Z) /\
  getOrCreateChat new_chat (fst (getOrCreateChat new_chat st0 u1 u3)) u1 u3 =
  (fst (getOrCreateChat new_chat st0 u1 u3), Ok (mkChatView c2 None None (Some 1%Z) 1%Z)).
Proof.
  assert (H : snd (getOrCreateChat new_chat st0 u1 u3) =
              Ok (mkChatView c2 None None (Some 1%Z) 1%Z)) by (vm_compute; reflexivity).
  split; [exact new_chat_keeps|]; split; [exact H|].
  exact (getOrCreateChat_idempotent new_chat new_chat st0 u1 u3 _ new_chat_keeps H).
Defined.

Lemma getOrCreateChat_self_other_spelling_witness :
  canonical_id u3 /\ object_id_cast u3_upper = Some u3 /\ u3_upper <> u3 /\
  find (fun c => existsb (String.eqb u3) (participants c)) (chats st0) = None /\
  exists cv,
    getOrCreateChat new_chat st0 u3 u3_upper =
      (with_chats st0 (chats st0 ++ [new_chat [u3; u3]]), Ok cv) /\
    cv_participant cv = None.
Proof.
  assert (H1 : canonical_id u3) by (vm_compute; reflexivity).
  assert (H2 : object_id_cast u3_upper = Some u3) by (vm_compute; reflexivity).
  assert (H3 : u3_upper <> u3) by (unfold u3_upper, u3; discriminate).
  assert (H4 : find (fun c => existsb (String.eqb u3) (participants c)) (chats st0) = None)
    by (vm_compute; reflexivity).
  split; [exact H1|]; split; [exact H2|]; split; [exact H3|]; split; [exact H4|].
  pose proof (getOrCreateChat_self_other_spelling new_chat st0 u3 u3_upper new_chat_keeps
                H1 H2 H3) as H; rewrite H4 in H; exact H.
Defined.

Lemma format_chat_other_witness :
  participants chat1 = [user_id ann; user_id bob] /\
  cv_participant (format_chat st0 (user_id ann) chat1) = Some (profile bob) /\
  cv_participant (format_chat st0 (user_id bob) chat1) = Some (profile ann).
Proof.
  assert (Ha : In ann (users st0)) by (left; reflexivity).
  assert (Hb : In bob (users st0)) by (right; left; reflexivity).
  assert (Hp : participants chat1 = [user_id ann; user_id bob]) by reflexivity.
  assert (Hne : user_id ann <> user_id bob) by (vm_compute; discriminate).
  split; [exact Hp|].
  exact (format_chat_other st0 chat1 ann bob st0_user_ids Ha Hb Hp Hne).
Defined.

Lemma authCallback_idempotent_witness :
  snd (authCallback clerk_dir create_user st0 (Some "clerk_3") u3) =
    Ok (mkUser u3 "clerk_3" "cy" "cy@example.com" "") /\
  authCallback clerk_dir create_user
    (fst (authCallback clerk_dir create_user st0 (Some "clerk_3") u3)) (Some "clerk_3") c9 =
  (fst (authCallback clerk_dir create_user st0 (Some "clerk_3") u3),
   Ok (mkUser u3 "clerk_3" "cy" "cy@example.com" "")).
Proof.
  assert (H : snd (authCallback clerk_dir create_user st0 (Some "clerk_3") u3) =
              Ok (mkUser u3 "clerk_3" "cy" "cy@example.com" "")) by (vm_compute; reflexivity).
  split; [exact H|].
  exact (authCallback_idempotent clerk_dir create_user st0 "clerk_3" u3 c9 _
           create_user_keeps H).
Defined.

Lemma authCallback_then_protectedRoute_witness :
  protectedRoute st0 (Some "clerk_3") = Fail 401 "Unauthorized" /\
  snd (authCallback clerk_dir create_user st0 (Some "clerk_3") u3) =
    Ok (mkUser u3 "clerk_3" "cy" "cy@example.com" "") /\
  protectedRoute (fst (authCallback clerk_dir create_user st0 (Some "clerk_3") u3))
                 (Some "clerk_3") = Ok u3.
Proof.
  assert (H : snd (authCallback clerk_dir create_user st0 (Some "clerk_3") u3) =
              Ok (mkUser u3 "clerk_3" "cy" "cy@example.com" "")) by (vm_compute; reflexivity).
  split; [vm_compute; reflexivity|]; split; [exact H|].
  exact (authCallback_then_protectedRoute clerk_dir create_user st0 "clerk_3" u3 _
           create_user_keeps H).
Defined.


Lemma derive_name_no_last_name_witness :
  derive_name (mkClerkUser (Some "Ann") None [] None) = Some (trim "Ann").
Proof.
  exact (derive_name_no_last_name (mkClerkUser (Some "Ann") None [] None) "Ann"
           eq_refl ltac:(discriminate) eq_refl).
Defined.

